(** * BMPstat: pixel addressing and bit mutation over a raw BMP buffer

    A shallow embedding of [src/bmpstat.py].  The only state of a [BMPstat]
    object is its [raw_image] bytearray, so a method is a function from the
    buffer to an outcome (a value or a raised exception) and the buffer it
    leaves behind; the constructor copies its argument into [raw_image],
    so the initial state of an object is the sequence it was built from.
    Python integers are unbounded: they are [Z].  The elements of a
    bytearray are [Byte.byte], read as integers [0..255]. *)

From Stdlib Require Import ZArith Lia String List DecimalString.
From Stdlib.Strings Require Import Byte.
From stdpp Require Import base list.
Import ListNotations.

#[local] Open Scope Z_scope.

(** ** Exceptions *)

(** [ValueNotInExcludeEnd] is the class of the source, with its four
    attributes.  [ValueError] and [IndexError] are the built-in classes; an
    [IndexError] of the interpreter is kept without its message. *)
Inductive exn : Type :=
| ValueNotInExcludeEnd (message : string) (x start end_ : Z)
| ValueError (message : string)
| IndexError.

Inductive outcome (A : Type) : Type :=
| Ok (a : A)
| Raise (e : exn).
Arguments Ok {A} a.
Arguments Raise {A} e.

Abbreviation bytearray := (list byte).

(** A method of the object: it runs on the current buffer, returns or
    raises, and leaves a buffer. *)
Definition M (A : Type) : Type := bytearray -> outcome A * bytearray.

Definition ret {A} (a : A) : M A := fun raw => (Ok a, raw).

Definition raise {A} (e : exn) : M A := fun raw => (Raise e, raw).

Definition bind {A B} (c : M A) (k : A -> M B) : M B :=
  fun raw =>
    match c raw with
    | (Ok a, raw') => k a raw'
    | (Raise e, raw') => (Raise e, raw')
    end.

Notation "x <- c ;; k" := (bind c (fun x => k))
  (at level 62, c at next level, right associativity).
Notation "c ;;; k" := (bind c (fun _ => k))
  (at level 62, right associativity).

(** ** Python primitives on integers and byte sequences *)

Definition byte_to_Z (b : byte) : Z := Z.of_N (Byte.to_N b).

(** The value stored by [bytearray.__setitem__]: [None] outside
    [range(0, 256)]. *)
Definition byte_of_Z (v : Z) : option byte :=
  if v <? 0 then None else Byte.of_N (Z.to_N v).

(** [int.from_bytes(bs, byteorder='little')]; the default is [signed=False]. *)
Fixpoint int_from_bytes_little (bs : list byte) : Z :=
  match bs with
  | [] => 0
  | b :: bs' => byte_to_Z b + 256 * int_from_bytes_little bs'
  end.

(** [str(z)] for an integer, as an f-string prints it. *)
Definition str_int (z : Z) : string := NilZero.string_of_int (Z.to_int z).

(** [ValueNotInExcludeEnd.__str__] *)
Definition ValueNotInExcludeEnd_str (message : string) (x start end_ : Z) : string :=
  ("ValueNotInExcludeEnd@" ++ message ++ ": " ++ str_int x ++ " not in ["
     ++ str_int start ++ ", " ++ str_int end_ ++ ")")%string.

(** A slice bound is clipped to [0, len], a negative one counted from the
    end first. *)
Definition slice_bound (len k : Z) : nat :=
  Z.to_nat (if k <? 0 then Z.max (k + len) 0 else Z.min k len).

(** [s[a:b]]: never raises. *)
Definition slice (a b : Z) (s : bytearray) : bytearray :=
  let len := Z.of_nat (length s) in
  let lo := slice_bound len a in
  let hi := slice_bound len b in
  take (hi - lo)%nat (drop lo s).

(** [s[a:b] = v]: the slice, empty when [b] falls before [a], is replaced by
    the whole of [v]. *)
Definition slice_assign (a b : Z) (v s : bytearray) : bytearray :=
  let len := Z.of_nat (length s) in
  let lo := slice_bound len a in
  let hi := Nat.max lo (slice_bound len b) in
  take lo s ++ v ++ drop hi s.

(** The position an integer index denotes in a sequence of length [len]:
    a negative index counts from the end; [None] when out of range. *)
Definition py_index (len : nat) (k : Z) : option nat :=
  let k' := if k <? 0 then k + Z.of_nat len else k in
  if (k' <? 0) || (Z.of_nat len <=? k') then None else Some (Z.to_nat k').

(** [self.raw_image[a:b]] *)
Definition getslice (a b : Z) : M bytearray := fun raw => (Ok (slice a b raw), raw).

(** [self.raw_image[a:b] = v] *)
Definition setslice (a b : Z) (v : bytearray) : M unit :=
  fun raw => (Ok tt, slice_assign a b v raw).

(** [self.raw_image[k]] *)
Definition getitem (k : Z) : M Z :=
  fun raw =>
    match py_index (length raw) k with
    | Some n =>
        match raw !! n with
        | Some b => (Ok (byte_to_Z b), raw)
        | None => (Raise IndexError, raw)
        end
    | None => (Raise IndexError, raw)
    end.

(** [self.raw_image[k] = v]: the value is checked, then the index. *)
Definition setitem (k v : Z) : M unit :=
  fun raw =>
    match byte_of_Z v with
    | None => (Raise (ValueError "byte must be in range(0, 256)"), raw)
    | Some b =>
        match py_index (length raw) k with
        | Some n => (Ok tt, <[n:=b]> raw)
        | None => (Raise IndexError, raw)
        end
    end.

(** [a << n] *)
Definition lshift (a n : Z) : M Z :=
  if n <? 0 then raise (ValueError "negative shift count") else ret (Z.shiftl a n).

(** [math.ceil(x / 8)].  The quotient is a float; it is exact, and so is
    its ceiling, for every [x] below [2^53] (division by a power of two),
    which covers every product of a 16-bit and a 32-bit field. *)
Definition ceil_div8 (x : Z) : Z := - ((- x) / 8).

(** ** The class [BMPstat] *)

Definition set_raw_image (raw_image : bytearray) : M unit :=
  fun _ => (Ok tt, raw_image).

Definition get_raw_image : M bytearray := fun raw => (Ok raw, raw).

Definition get_offset : M Z :=
  bs <- getslice 10 14 ;;
  ret (int_from_bytes_little bs).

Definition get_size : M (Z * Z) :=
  wb <- getslice 18 22 ;;
  let width := int_from_bytes_little wb in
  hb <- getslice 22 26 ;;
  let height := int_from_bytes_little hb in
  ret (width, height).

Definition get_bpp : M Z :=
  bs <- getslice 28 30 ;;
  let bpp := int_from_bytes_little bs in
  ret bpp.

Definition get_Bpp : M Z :=
  bpp <- get_bpp ;;
  ret (Z.max 1 (bpp / 8)).

Definition get_rowsize_bpp : M Z :=
  sz <- get_size ;;
  let width := fst sz in
  bpp <- get_bpp ;;
  ret (bpp * width).

Definition get_rowsize : M Z :=
  row_size_bpp <- get_rowsize_bpp ;;
  ret (ceil_div8 row_size_bpp).

Definition get_padding : M Z :=
  sz <- get_size ;;
  let width := fst sz in
  Bpp <- get_Bpp ;;
  let row_padding := 4 - (width * Bpp) mod 4 in
  ret (row_padding mod 4).

Definition get_eff_rowsize : M Z :=
  r <- get_rowsize ;;
  p <- get_padding ;;
  ret (r + p).

Definition get_payload_size : M Z :=
  rowsize <- get_eff_rowsize ;;
  sz <- get_size ;;
  let height := snd sz in
  ret (height * rowsize).

Definition get_payload : M bytearray :=
  start <- get_offset ;;
  payload_size <- get_payload_size ;;
  getslice start (start + payload_size).

Definition set_payload (payload : bytearray) : M unit :=
  start <- get_offset ;;
  payload_size <- get_payload_size ;;
  if negb (Z.of_nat (length payload) =? payload_size)
  then raise (ValueError "Error")
  else setslice start (start + payload_size) payload.

Definition check_width_w_padding (w : Z) : M unit :=
  sz <- get_size ;;
  let width := fst sz in
  ps <- get_payload_size ;;
  let padding := if 0 <? ps then 1 else 0 in
  if (w <? 0) || (width + padding <=? w)
  then raise (ValueNotInExcludeEnd
                "Width value out of bounds, the padding is included"
                w 0 (width + padding))
  else ret tt.

Definition check_width (w : Z) : M unit :=
  sz <- get_size ;;
  let width := fst sz in
  if (w <? 0) || (width <=? w)
  then raise (ValueNotInExcludeEnd "Width value out of bounds" w 0 width)
  else ret tt.

Definition check_height (h : Z) : M unit :=
  sz <- get_size ;;
  let height := snd sz in
  if (h <? 0) || (height <=? h)
  then raise (ValueNotInExcludeEnd "Height value out of bounds" h 0 height)
  else ret tt.

Definition check_layer (layer : Z) : M unit :=
  Bpp <- get_Bpp ;;
  if Bpp <=? layer
  then raise (ValueNotInExcludeEnd "Layer value out of bounds" layer 0 Bpp)
  else ret tt.

Definition check_sublayer (sublayer : Z) : M unit :=
  bpp <- get_bpp ;;
  if bpp <=? sublayer
  then raise (ValueNotInExcludeEnd "Sublayer value out of bounds" sublayer 0 bpp)
  else ret tt.

Definition pixel_message (i j : Z) (which : string) : string :=
  ("Pixel(" ++ str_int i ++ "," ++ str_int j ++ ") the " ++ which
     ++ " is out of range")%string.

Definition get_pixel_offset (i j : Z) : M Z :=
  sz <- get_size ;;
  let width := fst sz in
  let height := snd sz in
  if (i <? 0) || (width <=? i)
  then raise (ValueNotInExcludeEnd (pixel_message i j "i") i 0 width)
  else if (j <? 0) || (height <=? j)
  then raise (ValueNotInExcludeEnd (pixel_message i j "j") j 0 height)
  else
    o <- get_offset ;;
    e <- get_eff_rowsize ;;
    B <- get_Bpp ;;
    ret (o + j * e + i * B).

(** [bitmask] is the function the caller passes; it receives the offset and
    acts on the buffer of the object.  The method returns [self]: the
    object whose buffer is the final state. *)
Definition apply_bitmask (i j layer : Z) (bitmask : Z -> M unit) : M unit :=
  check_width i ;;;
  check_height j ;;;
  check_layer layer ;;;
  po <- get_pixel_offset i j ;;
  let offset := po + layer in
  bitmask offset.

(** An augmented assignment [self.raw_image[offset] op= mask]: the item is
    read, the operator applied, the result stored at the same index. *)
Definition inplace (op : Z -> Z) (offset : Z) : M unit :=
  v <- getitem offset ;;
  setitem offset (op v).

(** The inner function [bitmask] of [set_one]:
    [mask = 1 << sublayer; self.raw_image[offset] |= mask]. *)
Definition set_one_bitmask (sublayer : Z) (offset : Z) : M unit :=
  s <- lshift 1 sublayer ;;
  let mask := s in
  inplace (fun v => Z.lor v mask) offset.

Definition set_one (i j layer sublayer : Z) : M unit :=
  check_sublayer sublayer ;;;
  apply_bitmask i j layer (set_one_bitmask sublayer).

(** The inner function [bitmask] of [set_zero]:
    [mask = 0xFF ^ (1 << sublayer); self.raw_image[offset] &= mask]. *)
Definition set_zero_bitmask (sublayer : Z) (offset : Z) : M unit :=
  s <- lshift 1 sublayer ;;
  let mask := Z.lxor 255 s in
  inplace (fun v => Z.land v mask) offset.

Definition set_zero (i j layer sublayer : Z) : M unit :=
  check_sublayer sublayer ;;;
  apply_bitmask i j layer (set_zero_bitmask sublayer).

(** ** Example buffers *)

Definition zeros (n : nat) : bytearray := repeat x00 n.

(** A 54-byte header whose four fields hold the given low bytes (the upper
    bytes of each field are zero), followed by the bytes [px]. *)
Definition bmp (off w h bpp : byte) (px : bytearray) : bytearray :=
  zeros 10 ++ [off; x00; x00; x00] ++ zeros 4
    ++ [w; x00; x00; x00] ++ [h; x00; x00; x00] ++ zeros 2
    ++ [bpp; x00] ++ zeros 24 ++ px.

(** ** The header fields and the geometry as functions of the buffer

    The readers never raise and never write, so each has a value on every
    buffer; these names are used in the proofs. *)

Definition offset_of (raw : bytearray) : Z := int_from_bytes_little (slice 10 14 raw).
Definition width_of (raw : bytearray) : Z := int_from_bytes_little (slice 18 22 raw).
Definition height_of (raw : bytearray) : Z := int_from_bytes_little (slice 22 26 raw).
Definition bpp_of (raw : bytearray) : Z := int_from_bytes_little (slice 28 30 raw).
Definition Bpp_of (raw : bytearray) : Z := Z.max 1 (bpp_of raw / 8).
Definition padding_of (raw : bytearray) : Z :=
  (4 - (width_of raw * Bpp_of raw) mod 4) mod 4.
Definition eff_rowsize_of (raw : bytearray) : Z :=
  ceil_div8 (bpp_of raw * width_of raw) + padding_of raw.
Definition payload_size_of (raw : bytearray) : Z :=
  height_of raw * eff_rowsize_of raw.

(** The reading the documentation of [get_size] announces: a signed 32-bit
    little-endian integer. *)
Definition int32_from_bytes_little (bs : bytearray) : Z :=
  let u := int_from_bytes_little bs in
  if u <? 2 ^ 31 then u else u - 2 ^ 32.

(** A complete 4x2 image at 24 bits per pixel: rows of 12 bytes, no
    padding, every pixel byte [A5]. *)
Definition image_4x2 : bytearray := bmp x36 x04 x02 x18 (repeat xa5 24).

(** What a read of position [n] contributes to an integer field: the byte
    when the buffer has one there, nothing otherwise. *)
Definition byte_or_zero (raw : bytearray) (n : nat) : Z :=
  match raw !! n with
  | Some b => byte_to_Z b
  | None => 0
  end.

(** A callback that, when it returns, has rewritten the byte at the offset
    it was given and nothing else. *)
Definition rewrites_one_byte (bitmask : Z -> M unit) : Prop :=
  forall offset raw raw',
    bitmask offset raw = (Ok tt, raw') ->
    exists n b, py_index (length raw) offset = Some n /\ raw' = <[n:=b]> raw.

(** The shape [set_one] and [set_zero] share: the sublayer check, then
    [apply_bitmask] with a callback that shifts [1] by the sublayer and
    updates the byte in place with an operator of the shifted bit. *)
Definition bit_bitmask (op : Z -> Z -> Z) (sublayer offset : Z) : M unit :=
  s <- lshift 1 sublayer ;;
  inplace (op s) offset.

Definition bit_call (op : Z -> Z -> Z) (i j layer sublayer : Z) : M unit :=
  check_sublayer sublayer ;;;
  apply_bitmask i j layer (bit_bitmask op sublayer).

Definition or_bit (s v : Z) : Z := Z.lor v s.
Definition clear_bit (s v : Z) : Z := Z.land v (Z.lxor 255 s).

(** ** Running the readers *)

Lemma get_offset_run raw : get_offset raw = (Ok (offset_of raw), raw).
Proof. reflexivity. Qed.

Lemma get_size_run raw : get_size raw = (Ok (width_of raw, height_of raw), raw).
Proof. reflexivity. Qed.

Lemma get_bpp_run raw : get_bpp raw = (Ok (bpp_of raw), raw).
Proof. reflexivity. Qed.

Lemma get_Bpp_run raw : get_Bpp raw = (Ok (Bpp_of raw), raw).
Proof. reflexivity. Qed.

Lemma get_rowsize_bpp_run raw :
  get_rowsize_bpp raw = (Ok (bpp_of raw * width_of raw), raw).
Proof. reflexivity. Qed.

Lemma get_rowsize_run raw :
  get_rowsize raw = (Ok (ceil_div8 (bpp_of raw * width_of raw)), raw).
Proof. reflexivity. Qed.

Lemma get_padding_run raw : get_padding raw = (Ok (padding_of raw), raw).
Proof. reflexivity. Qed.

Lemma get_eff_rowsize_run raw : get_eff_rowsize raw = (Ok (eff_rowsize_of raw), raw).
Proof. reflexivity. Qed.

Lemma get_payload_size_run raw :
  get_payload_size raw = (Ok (payload_size_of raw), raw).
Proof. reflexivity. Qed.

(** ** Bytes and little-endian integers *)

Lemma byte_to_Z_range b : 0 <= byte_to_Z b < 256.
Proof.
  unfold byte_to_Z. pose proof (Byte.to_N_bounded b) as Hb. lia.
Qed.

Lemma byte_of_to_Z b : byte_of_Z (byte_to_Z b) = Some b.
Proof.
  unfold byte_of_Z, byte_to_Z.
  destruct (Z.ltb_spec (Z.of_N (Byte.to_N b)) 0) as [Hneg | _]; [lia |].
  rewrite N2Z.id. apply Byte.of_to_N.
Qed.

Lemma byte_to_of_Z v b : byte_of_Z v = Some b -> byte_to_Z b = v.
Proof.
  unfold byte_of_Z, byte_to_Z.
  destruct (Z.ltb_spec v 0) as [Hneg | Hpos]; [discriminate |].
  intros Hof. apply Byte.to_of_N in Hof. rewrite Hof. lia.
Qed.

Lemma byte_of_Z_in_range v : 0 <= v < 256 -> exists b, byte_of_Z v = Some b.
Proof.
  intros Hv. unfold byte_of_Z.
  destruct (Z.ltb_spec v 0) as [Hneg | _]; [lia |].
  destruct (Byte.of_N (Z.to_N v)) as [b |] eqn:Hof; [eauto |].
  apply Byte.of_N_None_iff in Hof. lia.
Qed.

Lemma byte_of_Z_out_of_range v : ~ 0 <= v < 256 -> byte_of_Z v = None.
Proof.
  intros Hv. unfold byte_of_Z.
  destruct (Z.ltb_spec v 0) as [Hneg | Hpos]; [reflexivity |].
  apply Byte.of_N_None_iff. lia.
Qed.

Lemma int_from_bytes_little_range bs :
  0 <= int_from_bytes_little bs < 256 ^ Z.of_nat (length bs).
Proof.
  induction bs as [| b bs IH]; simpl int_from_bytes_little.
  - simpl. lia.
  - pose proof (byte_to_Z_range b) as Hb.
    replace (Z.of_nat (length (b :: bs))) with (Z.succ (Z.of_nat (length bs)))
      by (simpl length; lia).
    rewrite Z.pow_succ_r by lia.
    set (p := 256 ^ Z.of_nat (length bs)) in *. lia.
Qed.

Lemma length_slice a b s :
  (length (slice a b s) <= slice_bound (Z.of_nat (length s)) b
                            - slice_bound (Z.of_nat (length s)) a)%nat.
Proof. unfold slice. rewrite length_take. lia. Qed.

(** A field of [n] bytes starting at a fixed non-negative position is an
    unsigned integer below [256 ^ n], whatever the length of the buffer. *)
Lemma field_range a n s :
  0 <= a -> 0 <= n ->
  0 <= int_from_bytes_little (slice a (a + n) s) < 256 ^ n.
Proof.
  intros Ha Hn.
  pose proof (int_from_bytes_little_range (slice a (a + n) s)) as Hr.
  pose proof (length_slice a (a + n) s) as Hl.
  assert (Z.of_nat (length (slice a (a + n) s)) <= n) as Hle.
  { unfold slice_bound in Hl.
    destruct (Z.ltb_spec a 0); [lia |].
    destruct (Z.ltb_spec (a + n) 0); lia. }
  split; [lia |].
  eapply Z.lt_le_trans; [apply Hr |].
  apply Z.pow_le_mono_r; lia.
Qed.

Lemma offset_of_range raw : 0 <= offset_of raw < 2 ^ 32.
Proof. apply (field_range 10 4); lia. Qed.

Lemma width_of_range raw : 0 <= width_of raw < 2 ^ 32.
Proof. apply (field_range 18 4); lia. Qed.

Lemma height_of_range raw : 0 <= height_of raw < 2 ^ 32.
Proof. apply (field_range 22 4); lia. Qed.

Lemma bpp_of_range raw : 0 <= bpp_of raw < 2 ^ 16.
Proof. apply (field_range 28 2); lia. Qed.

Lemma Bpp_of_pos raw : 1 <= Bpp_of raw.
Proof. unfold Bpp_of. lia. Qed.

(** The argument of [math.ceil] stays far below [2^53], where the float
    quotient by 8 is exact. *)
Lemma rowsize_bpp_exact raw : 0 <= bpp_of raw * width_of raw < 2 ^ 53.
Proof.
  pose proof (bpp_of_range raw). pose proof (width_of_range raw). nia.
Qed.

Lemma ceil_div8_spec x : 8 * (ceil_div8 x - 1) < x <= 8 * ceil_div8 x.
Proof. unfold ceil_div8. Z.div_mod_to_equations. lia. Qed.

Lemma padding_of_range raw : 0 <= padding_of raw <= 3.
Proof. unfold padding_of. Z.div_mod_to_equations. lia. Qed.

Lemma eff_rowsize_of_nonneg raw : 0 <= eff_rowsize_of raw.
Proof.
  unfold eff_rowsize_of.
  pose proof (padding_of_range raw). pose proof (rowsize_bpp_exact raw).
  pose proof (ceil_div8_spec (bpp_of raw * width_of raw)). lia.
Qed.

Lemma eff_rowsize_of_pos raw :
  0 < bpp_of raw -> 0 < width_of raw -> 0 < eff_rowsize_of raw.
Proof.
  intros Hb Hw. unfold eff_rowsize_of.
  pose proof (padding_of_range raw).
  pose proof (ceil_div8_spec (bpp_of raw * width_of raw)). nia.
Qed.

Lemma payload_size_of_nonneg raw : 0 <= payload_size_of raw.
Proof.
  unfold payload_size_of.
  pose proof (height_of_range raw). pose proof (eff_rowsize_of_nonneg raw). nia.
Qed.

(** ** Slices and indices *)

Lemma slice_take_drop a b s :
  0 <= a <= b ->
  slice a b s = take (Z.to_nat (b - a)) (drop (Z.to_nat a) s).
Proof.
  intros Hab. unfold slice, slice_bound.
  destruct (Z.ltb_spec a 0) as [? | _]; [lia |].
  destruct (Z.ltb_spec b 0) as [? | _]; [lia |].
  destruct (Z.le_gt_cases (Z.of_nat (length s)) a) as [Hshort | Hlong].
  - rewrite !drop_ge by lia. by rewrite !take_nil.
  - rewrite (Z.min_l a) by lia.
    destruct (Z.le_gt_cases b (Z.of_nat (length s))) as [Hin | Hout].
    + rewrite (Z.min_l b) by lia. f_equal. lia.
    + rewrite (Z.min_r b) by lia.
      rewrite !take_ge; [done | |]; rewrite length_drop; lia.
Qed.

Lemma slice_assign_inside a b v s :
  0 <= a <= b -> b <= Z.of_nat (length s) ->
  slice_assign a b v s = take (Z.to_nat a) s ++ v ++ drop (Z.to_nat b) s.
Proof.
  intros Hab Hb. unfold slice_assign, slice_bound.
  destruct (Z.ltb_spec a 0) as [? | _]; [lia |].
  destruct (Z.ltb_spec b 0) as [? | _]; [lia |].
  rewrite (Z.min_l a), (Z.min_l b) by lia. do 3 f_equal. lia.
Qed.

Lemma py_index_lt len k n : py_index len k = Some n -> (n < len)%nat.
Proof.
  unfold py_index. intros H.
  destruct (Z.ltb_spec k 0);
    match type of H with
    | (if ?c then _ else _) = _ => destruct c eqn:Hc; [discriminate |]
    end;
    apply orb_false_iff in Hc as [H1 H2];
    apply Z.ltb_ge in H1; apply Z.leb_gt in H2;
    injection H as <-; lia.
Qed.

Lemma py_index_nonneg len k :
  0 <= k < Z.of_nat len -> py_index len k = Some (Z.to_nat k).
Proof.
  intros Hk. unfold py_index.
  destruct (Z.ltb_spec k 0); [lia |].
  destruct (Z.ltb_spec k 0); [lia |].
  destruct (Z.leb_spec (Z.of_nat len) k); [lia |]. done.
Qed.

Lemma py_index_neg len k :
  - Z.of_nat len <= k < 0 -> py_index len k = Some (Z.to_nat (k + Z.of_nat len)).
Proof.
  intros Hk. unfold py_index.
  destruct (Z.ltb_spec k 0); [| lia].
  destruct (Z.ltb_spec (k + Z.of_nat len) 0); [lia |].
  destruct (Z.leb_spec (Z.of_nat len) (k + Z.of_nat len)); [lia |]. done.
Qed.

Lemma py_index_out len k :
  k < - Z.of_nat len \/ Z.of_nat len <= k -> py_index len k = None.
Proof.
  intros Hk. unfold py_index.
  destruct (Z.ltb_spec k 0).
  - destruct (Z.ltb_spec (k + Z.of_nat len) 0); [done | lia].
  - destruct (Z.ltb_spec k 0); [lia |].
    destruct (Z.leb_spec (Z.of_nat len) k); [done | lia].
Qed.

(** ** Item reads and writes *)

Lemma getitem_Ok k v raw raw' :
  getitem k raw = (Ok v, raw') ->
  raw' = raw /\
  exists n b, py_index (length raw) k = Some n /\ raw !! n = Some b /\ v = byte_to_Z b.
Proof.
  unfold getitem. intros H.
  destruct (py_index (length raw) k) as [n |]; [| discriminate].
  destruct (raw !! n) as [b |] eqn:Hb; [| discriminate].
  injection H as <- <-. eauto 6.
Qed.

Lemma getitem_at k n b raw :
  py_index (length raw) k = Some n -> raw !! n = Some b ->
  getitem k raw = (Ok (byte_to_Z b), raw).
Proof. unfold getitem. by intros -> ->. Qed.

Lemma getitem_Raise k e raw raw' : getitem k raw = (Raise e, raw') -> raw' = raw.
Proof.
  unfold getitem. intros H.
  destruct (py_index (length raw) k) as [n |]; [| congruence].
  destruct (raw !! n); congruence.
Qed.

Lemma setitem_Raise k v e raw raw' : setitem k v raw = (Raise e, raw') -> raw' = raw.
Proof.
  unfold setitem. intros H.
  destruct (byte_of_Z v); [| congruence].
  destruct (py_index (length raw) k); congruence.
Qed.

Lemma setitem_Ok k v raw raw' :
  setitem k v raw = (Ok tt, raw') ->
  exists n b, byte_of_Z v = Some b /\ py_index (length raw) k = Some n
              /\ raw' = <[n:=b]> raw.
Proof.
  unfold setitem. intros H.
  destruct (byte_of_Z v) as [b |]; [| discriminate].
  destruct (py_index (length raw) k) as [n |]; [| discriminate].
  injection H as <-. eauto.
Qed.

Lemma lookup_is_Some_of_index (raw : bytearray) k n :
  py_index (length raw) k = Some n -> exists b, raw !! n = Some b.
Proof.
  intros H%py_index_lt. by apply lookup_lt_is_Some_2.
Qed.

Lemma inplace_run op offset raw :
  inplace op offset raw =
    match py_index (length raw) offset with
    | None => (Raise IndexError, raw)
    | Some n =>
        match raw !! n with
        | None => (Raise IndexError, raw)
        | Some b =>
            match byte_of_Z (op (byte_to_Z b)) with
            | None => (Raise (ValueError "byte must be in range(0, 256)"), raw)
            | Some b' => (Ok tt, <[n:=b']> raw)
            end
        end
    end.
Proof.
  unfold inplace, bind, getitem, setitem.
  destruct (py_index (length raw) offset) as [n |] eqn:Hn; [| done].
  destruct (raw !! n) as [b |]; [| done].
  destruct (byte_of_Z (op (byte_to_Z b))); [| done].
  by rewrite Hn.
Qed.

Lemma inplace_Raise op offset e raw raw' :
  inplace op offset raw = (Raise e, raw') -> raw' = raw.
Proof.
  rewrite inplace_run. intros H.
  destruct (py_index (length raw) offset) as [n |]; [| congruence].
  destruct (raw !! n) as [b |]; [| congruence].
  destruct (byte_of_Z (op (byte_to_Z b))); congruence.
Qed.

Lemma inplace_Ok op offset raw raw' :
  inplace op offset raw = (Ok tt, raw') ->
  exists n b b',
    py_index (length raw) offset = Some n /\ raw !! n = Some b
    /\ byte_to_Z b' = op (byte_to_Z b) /\ raw' = <[n:=b']> raw.
Proof.
  rewrite inplace_run. intros H.
  destruct (py_index (length raw) offset) as [n |]; [| discriminate].
  destruct (raw !! n) as [b |] eqn:Hb; [| discriminate].
  destruct (byte_of_Z (op (byte_to_Z b))) as [b' |] eqn:Hb'; [| discriminate].
  injection H as <-. apply byte_to_of_Z in Hb'. by exists n, b, b'.
Qed.

Lemma inplace_at op offset n b b' raw :
  py_index (length raw) offset = Some n -> raw !! n = Some b ->
  byte_of_Z (op (byte_to_Z b)) = Some b' ->
  inplace op offset raw = (Ok tt, <[n:=b']> raw).
Proof. rewrite inplace_run. by intros -> -> ->. Qed.

(** ** Running the checks and the offset computation *)

Lemma check_width_run w raw :
  check_width w raw =
    if (w <? 0) || (width_of raw <=? w)
    then (Raise (ValueNotInExcludeEnd "Width value out of bounds" w 0 (width_of raw)), raw)
    else (Ok tt, raw).
Proof.
  unfold check_width, bind. rewrite get_size_run. cbn [fst].
  by destruct ((w <? 0) || (width_of raw <=? w)).
Qed.

Lemma check_height_run h raw :
  check_height h raw =
    if (h <? 0) || (height_of raw <=? h)
    then (Raise (ValueNotInExcludeEnd "Height value out of bounds" h 0 (height_of raw)), raw)
    else (Ok tt, raw).
Proof.
  unfold check_height, bind. rewrite get_size_run. cbn [snd].
  by destruct ((h <? 0) || (height_of raw <=? h)).
Qed.

Lemma check_layer_run layer raw :
  check_layer layer raw =
    if Bpp_of raw <=? layer
    then (Raise (ValueNotInExcludeEnd "Layer value out of bounds" layer 0 (Bpp_of raw)), raw)
    else (Ok tt, raw).
Proof.
  unfold check_layer, bind. rewrite get_Bpp_run.
  by destruct (Bpp_of raw <=? layer).
Qed.

Lemma check_sublayer_run sublayer raw :
  check_sublayer sublayer raw =
    if bpp_of raw <=? sublayer
    then (Raise (ValueNotInExcludeEnd "Sublayer value out of bounds" sublayer 0 (bpp_of raw)), raw)
    else (Ok tt, raw).
Proof.
  unfold check_sublayer, bind. rewrite get_bpp_run.
  by destruct (bpp_of raw <=? sublayer).
Qed.

Lemma get_pixel_offset_run i j raw :
  get_pixel_offset i j raw =
    if (i <? 0) || (width_of raw <=? i)
    then (Raise (ValueNotInExcludeEnd (pixel_message i j "i") i 0 (width_of raw)), raw)
    else if (j <? 0) || (height_of raw <=? j)
    then (Raise (ValueNotInExcludeEnd (pixel_message i j "j") j 0 (height_of raw)), raw)
    else (Ok (offset_of raw + j * eff_rowsize_of raw + i * Bpp_of raw), raw).
Proof.
  unfold get_pixel_offset, bind. rewrite get_size_run. cbn [fst snd].
  destruct ((i <? 0) || (width_of raw <=? i)); [done |].
  by destruct ((j <? 0) || (height_of raw <=? j)).
Qed.

Lemma in_range_test x hi : 0 <= x < hi -> (x <? 0) || (hi <=? x) = false.
Proof.
  intros Hx. apply orb_false_iff. split; [apply Z.ltb_ge | apply Z.leb_gt]; lia.
Qed.

Lemma out_of_range_test x hi : ~ 0 <= x < hi -> (x <? 0) || (hi <=? x) = true.
Proof.
  intros Hx. apply orb_true_iff.
  destruct (Z.ltb_spec x 0); [by left | right]. apply Z.leb_le. lia.
Qed.

Lemma get_pixel_offset_in i j raw :
  0 <= i < width_of raw -> 0 <= j < height_of raw ->
  get_pixel_offset i j raw
  = (Ok (offset_of raw + j * eff_rowsize_of raw + i * Bpp_of raw), raw).
Proof.
  intros Hi Hj. rewrite get_pixel_offset_run.
  by rewrite (in_range_test i), (in_range_test j).
Qed.

Lemma apply_bitmask_run i j layer bitmask raw :
  apply_bitmask i j layer bitmask raw =
    if (i <? 0) || (width_of raw <=? i)
    then (Raise (ValueNotInExcludeEnd "Width value out of bounds" i 0 (width_of raw)), raw)
    else if (j <? 0) || (height_of raw <=? j)
    then (Raise (ValueNotInExcludeEnd "Height value out of bounds" j 0 (height_of raw)), raw)
    else if Bpp_of raw <=? layer
    then (Raise (ValueNotInExcludeEnd "Layer value out of bounds" layer 0 (Bpp_of raw)), raw)
    else bitmask (offset_of raw + j * eff_rowsize_of raw + i * Bpp_of raw + layer) raw.
Proof.
  unfold apply_bitmask, bind.
  rewrite check_width_run.
  destruct ((i <? 0) || (width_of raw <=? i)) eqn:Hi; [done |].
  rewrite check_height_run.
  destruct ((j <? 0) || (height_of raw <=? j)) eqn:Hj; [done |].
  rewrite check_layer_run.
  destruct (Bpp_of raw <=? layer); [done |].
  rewrite get_pixel_offset_run, Hi, Hj. done.
Qed.

(** ** The two bit operations as one call shape *)

Lemma set_one_bit_call : set_one = bit_call or_bit.
Proof. reflexivity. Qed.

Lemma set_zero_bit_call : set_zero = bit_call clear_bit.
Proof. reflexivity. Qed.

Lemma bit_bitmask_run op sublayer offset raw :
  bit_bitmask op sublayer offset raw =
    if sublayer <? 0
    then (Raise (ValueError "negative shift count"), raw)
    else inplace (op (Z.shiftl 1 sublayer)) offset raw.
Proof.
  unfold bit_bitmask, bind, lshift. by destruct (sublayer <? 0).
Qed.

Lemma bit_call_run op i j layer sublayer raw :
  bit_call op i j layer sublayer raw =
    if bpp_of raw <=? sublayer
    then (Raise (ValueNotInExcludeEnd "Sublayer value out of bounds"
                   sublayer 0 (bpp_of raw)), raw)
    else apply_bitmask i j layer (bit_bitmask op sublayer) raw.
Proof.
  unfold bit_call, bind. rewrite check_sublayer_run.
  by destruct (bpp_of raw <=? sublayer).
Qed.

Section Callback.
Variable bitmask : Z -> M unit.

(** [apply_bitmask] writes nothing itself: when its checks pass, its
    outcome and final buffer are those of the callback. *)
Lemma apply_bitmask_Ok i j layer raw raw' :
  apply_bitmask i j layer bitmask raw = (Ok tt, raw') ->
  0 <= i < width_of raw /\ 0 <= j < height_of raw /\ layer < Bpp_of raw
  /\ bitmask (offset_of raw + j * eff_rowsize_of raw + i * Bpp_of raw + layer) raw
     = (Ok tt, raw').
Proof.
  rewrite apply_bitmask_run. intros H.
  destruct (Z.ltb_spec i 0); [discriminate |].
  destruct (Z.leb_spec (width_of raw) i); [discriminate |].
  destruct (Z.ltb_spec j 0); [discriminate |].
  destruct (Z.leb_spec (height_of raw) j); [discriminate |].
  destruct (Z.leb_spec (Bpp_of raw) layer); [discriminate |].
  cbn [orb] in H. repeat split; (lia || done).
Qed.

Lemma apply_bitmask_in i j layer raw :
  0 <= i < width_of raw -> 0 <= j < height_of raw -> layer < Bpp_of raw ->
  apply_bitmask i j layer bitmask raw
  = bitmask (offset_of raw + j * eff_rowsize_of raw + i * Bpp_of raw + layer) raw.
Proof.
  intros Hi Hj Hl. rewrite apply_bitmask_run.
  rewrite (in_range_test i), (in_range_test j) by done.
  destruct (Z.leb_spec (Bpp_of raw) layer); [lia | done].
Qed.

Hypothesis bitmask_Raise :
  forall offset e raw raw', bitmask offset raw = (Raise e, raw') -> raw' = raw.

Lemma apply_bitmask_Raise i j layer e raw raw' :
  apply_bitmask i j layer bitmask raw = (Raise e, raw') -> raw' = raw.
Proof.
  rewrite apply_bitmask_run. intros H.
  destruct ((i <? 0) || (width_of raw <=? i)); [congruence |].
  destruct ((j <? 0) || (height_of raw <=? j)); [congruence |].
  destruct (Bpp_of raw <=? layer); [congruence |].
  by eapply bitmask_Raise.
Qed.
End Callback.

Section BitCall.
Variable op : Z -> Z -> Z.

Lemma bit_bitmask_Raise sublayer offset e raw raw' :
  bit_bitmask op sublayer offset raw = (Raise e, raw') -> raw' = raw.
Proof.
  rewrite bit_bitmask_run.
  destruct (sublayer <? 0); [congruence | apply inplace_Raise].
Qed.

Lemma bit_bitmask_Ok sublayer offset raw raw' :
  bit_bitmask op sublayer offset raw = (Ok tt, raw') ->
  0 <= sublayer /\
  exists n b b',
    py_index (length raw) offset = Some n /\ raw !! n = Some b
    /\ byte_to_Z b' = op (Z.shiftl 1 sublayer) (byte_to_Z b)
    /\ raw' = <[n:=b']> raw.
Proof.
  rewrite bit_bitmask_run.
  destruct (Z.ltb_spec sublayer 0) as [Hneg | Hpos]; [discriminate |].
  intros Hrun%inplace_Ok. split; [lia | done].
Qed.

Lemma bit_bitmask_rewrites sublayer : rewrites_one_byte (bit_bitmask op sublayer).
Proof.
  intros offset raw raw' (_ & n & b & b' & Hn & _ & _ & ->)%bit_bitmask_Ok.
  by exists n, b'.
Qed.

(** A failed call leaves the buffer as it was. *)
Lemma bit_call_Raise i j layer sublayer e raw raw' :
  bit_call op i j layer sublayer raw = (Raise e, raw') -> raw' = raw.
Proof.
  rewrite bit_call_run.
  destruct (bpp_of raw <=? sublayer); [congruence |].
  apply apply_bitmask_Raise. intros offset e0 r r'. apply bit_bitmask_Raise.
Qed.

(** A successful call has passed every check and rewritten one byte. *)
Lemma bit_call_Ok i j layer sublayer raw raw' :
  bit_call op i j layer sublayer raw = (Ok tt, raw') ->
  0 <= sublayer < bpp_of raw /\ 0 <= i < width_of raw
  /\ 0 <= j < height_of raw /\ layer < Bpp_of raw /\
  exists n b b',
    py_index (length raw)
      (offset_of raw + j * eff_rowsize_of raw + i * Bpp_of raw + layer) = Some n
    /\ raw !! n = Some b
    /\ byte_to_Z b' = op (Z.shiftl 1 sublayer) (byte_to_Z b)
    /\ raw' = <[n:=b']> raw.
Proof.
  rewrite bit_call_run.
  destruct (Z.leb_spec (bpp_of raw) sublayer); [discriminate |].
  intros (Hi & Hj & Hl & [Hs Hb]%bit_bitmask_Ok)%apply_bitmask_Ok.
  repeat split; (lia || done).
Qed.

(** The call succeeds when the checks pass, the shift count is not
    negative, the index is in the buffer and the new value is a byte. *)
Lemma bit_call_at i j layer sublayer n b b' raw :
  0 <= sublayer < bpp_of raw -> 0 <= i < width_of raw ->
  0 <= j < height_of raw -> layer < Bpp_of raw ->
  py_index (length raw)
    (offset_of raw + j * eff_rowsize_of raw + i * Bpp_of raw + layer) = Some n ->
  raw !! n = Some b ->
  byte_of_Z (op (Z.shiftl 1 sublayer) (byte_to_Z b)) = Some b' ->
  bit_call op i j layer sublayer raw = (Ok tt, <[n:=b']> raw).
Proof.
  intros Hs Hi Hj Hl Hn Hb Hb'. rewrite bit_call_run.
  destruct (Z.leb_spec (bpp_of raw) sublayer); [lia |].
  rewrite apply_bitmask_in by done. rewrite bit_bitmask_run.
  destruct (Z.ltb_spec sublayer 0); [lia |].
  by apply inplace_at with b.
Qed.
End BitCall.

(** ** Bits of a byte *)

Lemma byte_bits_high v k : 0 <= v < 256 -> 8 <= k -> Z.testbit v k = false.
Proof.
  intros Hv Hk. rewrite <- (Z.mod_small v (2 ^ 8)) by lia.
  apply Z.mod_pow2_bits_high. lia.
Qed.

Lemma byte_range_of_bits x :
  (forall k, 8 <= k -> Z.testbit x k = false) -> 0 <= x < 256.
Proof.
  intros Hhigh.
  assert (x = x mod 2 ^ 8) as ->.
  { rewrite <- Z.land_ones by lia. apply Z.bits_inj'. intros k Hk.
    rewrite Z.land_spec.
    destruct (Z.lt_ge_cases k 8) as [Hlow | Hge].
    - rewrite Z.ones_spec_low by lia. by rewrite andb_true_r.
    - rewrite Z.ones_spec_high by lia. rewrite andb_false_r. by apply Hhigh. }
  apply Z.mod_pos_bound. lia.
Qed.

Lemma testbit_shiftl_one s k : 0 <= s -> Z.testbit (Z.shiftl 1 s) k = (s =? k).
Proof. intros Hs. rewrite Z.shiftl_1_l. by apply Z.pow2_bits_eqb. Qed.

Lemma or_bit_testbit s v k :
  0 <= s -> Z.testbit (or_bit (Z.shiftl 1 s) v) k = Z.testbit v k || (s =? k).
Proof. intros Hs. unfold or_bit. by rewrite Z.lor_spec, testbit_shiftl_one. Qed.

Lemma clear_bit_testbit s v k :
  0 <= s -> 0 <= v < 256 ->
  Z.testbit (clear_bit (Z.shiftl 1 s) v) k = Z.testbit v k && negb (s =? k).
Proof.
  intros Hs Hv. unfold clear_bit.
  rewrite Z.land_spec, Z.lxor_spec, testbit_shiftl_one by done.
  destruct (Z.lt_ge_cases k 0) as [Hneg | Hk].
  { by rewrite (Z.testbit_neg_r v). }
  destruct (Z.lt_ge_cases k 8) as [Hlow | Hge].
  - change 255 with (Z.ones 8). rewrite Z.ones_spec_low by lia.
    by destruct (s =? k).
  - by rewrite (byte_bits_high v k).
Qed.

Lemma or_bit_range s v :
  0 <= s < 8 -> 0 <= v < 256 -> 0 <= or_bit (Z.shiftl 1 s) v < 256.
Proof.
  intros Hs Hv. apply byte_range_of_bits. intros k Hk.
  rewrite or_bit_testbit by lia. rewrite (byte_bits_high v k) by done.
  destruct (Z.eqb_spec s k); [lia | done].
Qed.

Lemma clear_bit_range s v :
  0 <= s -> 0 <= v < 256 -> 0 <= clear_bit (Z.shiftl 1 s) v < 256.
Proof.
  intros Hs Hv. apply byte_range_of_bits. intros k Hk.
  rewrite clear_bit_testbit by done. by rewrite (byte_bits_high v k).
Qed.

Lemma or_bit_idem s v : or_bit s (or_bit s v) = or_bit s v.
Proof. unfold or_bit. by rewrite <- Z.lor_assoc, Z.lor_diag. Qed.

Lemma clear_bit_idem s v : clear_bit s (clear_bit s v) = clear_bit s v.
Proof. unfold clear_bit. by rewrite <- Z.land_assoc, Z.land_diag. Qed.

Lemma byte_to_Z_inj b b' : byte_to_Z b = byte_to_Z b' -> b = b'.
Proof.
  intros Heq. pose proof (byte_of_to_Z b) as Hb.
  rewrite Heq, byte_of_to_Z in Hb. congruence.
Qed.

(** ** Row padding *)

(** C1. On every buffer [get_padding] returns one of 0, 1, 2, 3; added to
    [width * Bpp] (the values [get_size] and [get_Bpp] return on that
    buffer) it gives a multiple of 4; and it is 0 whenever [width * Bpp] is
    already a multiple of 4. *)
Theorem get_padding_aligns raw :
  exists width height Bpp padding,
    get_size raw = (Ok (width, height), raw)
    /\ get_Bpp raw = (Ok Bpp, raw)
    /\ get_padding raw = (Ok padding, raw)
    /\ (padding = 0 \/ padding = 1 \/ padding = 2 \/ padding = 3)
    /\ (width * Bpp + padding) mod 4 = 0
    /\ ((width * Bpp) mod 4 = 0 -> padding = 0).
Proof.
  exists (width_of raw), (height_of raw), (Bpp_of raw), (padding_of raw).
  rewrite get_size_run, get_Bpp_run, get_padding_run.
  do 3 (split; [reflexivity |]).
  unfold padding_of. generalize (width_of raw * Bpp_of raw). intros m.
  repeat split; Z.div_mod_to_equations; lia.
Qed.

Lemma get_padding_aligns_witness : get_padding image_4x2 = (Ok 0, image_4x2).
Proof.
  destruct (get_padding_aligns image_4x2)
    as (width & height & Bpp & padding & Hsize & HBpp & Hpad & _ & _ & Hzero).
  injection Hsize as <- <-. injection HBpp as <-.
  rewrite Hpad. rewrite Hzero; reflexivity.
Defined.

(** ** Row stride *)

(** C2, as stated, fails: with [bpp = 0] and a width that is a multiple of
    4 the effective row size is 0, and the offsets of the same column in
    two rows coincide. *)
Lemma pixel_offset_not_increasing :
  let raw := bmp x36 x04 x02 x00 [] in
  get_size raw = (Ok (4, 2), raw)
  /\ get_bpp raw = (Ok 0, raw)
  /\ get_eff_rowsize raw = (Ok 0, raw)
  /\ exists o0 o1,
      get_pixel_offset 0 0 raw = (Ok o0, raw)
      /\ get_pixel_offset 0 1 raw = (Ok o1, raw)
      /\ ~ o0 < o1.
Proof. do 3 (split; [reflexivity |]). exists 54, 54. repeat split. lia. Qed.

(** C2, amended. For a column [i] in bounds, the offsets of two
    consecutive in-bounds rows differ by exactly what [get_eff_rowsize]
    returns; and when [bpp] is at least 1 the offset is strictly increasing
    in the row over the in-bounds rows. *)
Theorem get_pixel_offset_rows raw i width height bpp :
  get_size raw = (Ok (width, height), raw) ->
  get_bpp raw = (Ok bpp, raw) ->
  0 <= i < width ->
  exists e,
    get_eff_rowsize raw = (Ok e, raw)
    /\ (forall j, 0 <= j -> j + 1 < height ->
        exists o o',
          get_pixel_offset i j raw = (Ok o, raw)
          /\ get_pixel_offset i (j + 1) raw = (Ok o', raw)
          /\ o' - o = e)
    /\ (0 < bpp ->
        forall j1 j2, 0 <= j1 -> j1 < j2 -> j2 < height ->
        exists o1 o2,
          get_pixel_offset i j1 raw = (Ok o1, raw)
          /\ get_pixel_offset i j2 raw = (Ok o2, raw)
          /\ o1 < o2).
Proof.
  rewrite get_size_run, get_bpp_run. intros [= <- <-] [= <-] Hi.
  exists (eff_rowsize_of raw). split; [apply get_eff_rowsize_run |]. split.
  - intros j Hj0 Hj1. do 2 eexists.
    rewrite !get_pixel_offset_in by lia. repeat split. lia.
  - intros Hbpp j1 j2 Hj0 Hlt Hj2. do 2 eexists.
    rewrite !get_pixel_offset_in by lia. repeat split.
    assert (0 < eff_rowsize_of raw) by (apply eff_rowsize_of_pos; lia). nia.
Qed.

Lemma get_pixel_offset_rows_witness :
  let raw := bmp x36 x04 x02 x18 (zeros 24) in
  get_eff_rowsize raw = (Ok 12, raw)
  /\ exists o o',
      get_pixel_offset 2 0 raw = (Ok o, raw)
      /\ get_pixel_offset 2 1 raw = (Ok o', raw)
      /\ o' - o = 12 /\ o < o'.
Proof.
  destruct (get_pixel_offset_rows (bmp x36 x04 x02 x18 (zeros 24)) 2 4 2 24)
    as (e & He & Hstep & Hmono); [reflexivity | reflexivity | lia |].
  injection He as <-. split; [reflexivity |].
  destruct (Hstep 0) as (o & o' & Ho & Ho' & Hdiff); [lia | lia |].
  destruct (Hmono ltac:(lia) 0 1) as (o1 & o2 & Ho1 & Ho2 & Hlt); [lia | lia | lia |].
  exists o, o'. change (0 + 1) with 1 in Ho'.
  repeat split; [exact Ho | exact Ho' | exact Hdiff |].
  rewrite Ho in Ho1. rewrite Ho' in Ho2.
  injection Ho1 as <-. injection Ho2 as <-. exact Hlt.
Defined.

(** ** Setting and clearing one bit *)

Lemma getitem_insert k n (b : byte) raw :
  py_index (length raw) k = Some n ->
  getitem k (<[n:=b]> raw) = (Ok (byte_to_Z b), <[n:=b]> raw).
Proof.
  intros Hn. apply getitem_at with n.
  - by rewrite length_insert.
  - apply list_lookup_insert_eq. by apply py_index_lt with k.
Qed.

(** C3, as stated, fails twice over.  A buffer that ends before the byte
    of an accepted pixel makes the call raise [IndexError]; and on a
    complete 24-bit image the accepted sublayer 8 makes [set_one] raise
    [ValueError], the byte being left as it was. *)
Lemma set_one_accepted_yet_raises :
  (let raw := bmp x36 x01 x01 x18 [] in
   check_sublayer 0 raw = (Ok tt, raw) /\ check_width 0 raw = (Ok tt, raw)
   /\ check_height 0 raw = (Ok tt, raw) /\ check_layer 0 raw = (Ok tt, raw)
   /\ set_one 0 0 0 0 raw = (Raise IndexError, raw))
  /\
  (let raw := bmp x36 x01 x01 x18 (zeros 4) in
   check_sublayer 8 raw = (Ok tt, raw) /\ check_width 0 raw = (Ok tt, raw)
   /\ check_height 0 raw = (Ok tt, raw) /\ check_layer 0 raw = (Ok tt, raw)
   /\ get_pixel_offset 0 0 raw = (Ok 54, raw)
   /\ set_one 0 0 0 8 raw
      = (Raise (ValueError "byte must be in range(0, 256)"), raw)
   /\ getitem (54 + 0) raw = (Ok 0, raw)
   /\ Z.testbit 0 8 = false).
Proof. repeat split. Qed.

(** C3, amended. Let (i, j, layer, sublayer) be accepted by the four
    checks, with [0 <= sublayer < 8], and let the byte at
    [get_pixel_offset(i, j) + layer] exist in the buffer (the read
    [raw_image[offset]] returns [v]).  Then [set_one] returns and leaves
    that byte with bit [sublayer] equal to 1, [set_zero] returns and leaves
    it with bit [sublayer] equal to 0, and in both cases every other bit of
    the byte is as in [v]. *)
Theorem set_bit_roundtrip raw i j layer sublayer width height Bpp bpp po v :
  get_size raw = (Ok (width, height), raw) ->
  get_Bpp raw = (Ok Bpp, raw) ->
  get_bpp raw = (Ok bpp, raw) ->
  0 <= i < width -> 0 <= j < height -> layer < Bpp -> sublayer < bpp ->
  0 <= sublayer < 8 ->
  get_pixel_offset i j raw = (Ok po, raw) ->
  getitem (po + layer) raw = (Ok v, raw) ->
  exists raw1 v1 raw0 v0,
    set_one i j layer sublayer raw = (Ok tt, raw1)
    /\ getitem (po + layer) raw1 = (Ok v1, raw1)
    /\ Z.testbit v1 sublayer = true
    /\ (forall k, k <> sublayer -> Z.testbit v1 k = Z.testbit v k)
    /\ set_zero i j layer sublayer raw = (Ok tt, raw0)
    /\ getitem (po + layer) raw0 = (Ok v0, raw0)
    /\ Z.testbit v0 sublayer = false
    /\ (forall k, k <> sublayer -> Z.testbit v0 k = Z.testbit v k).
Proof.
  rewrite get_size_run, get_Bpp_run, get_bpp_run.
  intros [= <- <-] [= <-] [= <-] Hi Hj Hl Hs Hs8.
  rewrite get_pixel_offset_in by done. intros [= <-].
  intros (_ & n & b & Hn & Hb & ->)%getitem_Ok.
  pose proof (byte_to_Z_range b) as Hrange.
  destruct (byte_of_Z_in_range _ (or_bit_range sublayer _ Hs8 Hrange))
    as [b1 Hb1].
  destruct (byte_of_Z_in_range _
              (clear_bit_range sublayer _ (proj1 Hs8) Hrange)) as [b0 Hb0].
  exists (<[n:=b1]> raw), (byte_to_Z b1), (<[n:=b0]> raw), (byte_to_Z b0).
  rewrite set_one_bit_call, set_zero_bit_call.
  rewrite (bit_call_at or_bit i j layer sublayer n b b1) by (done || lia).
  rewrite (bit_call_at clear_bit i j layer sublayer n b b0) by (done || lia).
  rewrite !getitem_insert by done.
  rewrite (byte_to_of_Z _ _ Hb1), (byte_to_of_Z _ _ Hb0).
  repeat split.
  - rewrite or_bit_testbit by lia. rewrite Z.eqb_refl. apply orb_true_r.
  - intros k Hk. rewrite or_bit_testbit by lia.
    destruct (Z.eqb_spec sublayer k); [congruence | apply orb_false_r].
  - rewrite clear_bit_testbit by lia. rewrite Z.eqb_refl. apply andb_false_r.
  - intros k Hk. rewrite clear_bit_testbit by lia.
    destruct (Z.eqb_spec sublayer k); [congruence | apply andb_true_r].
Qed.

Lemma set_bit_roundtrip_witness :
  exists raw1 v1 raw0 v0,
    set_one 2 1 1 1 image_4x2 = (Ok tt, raw1)
    /\ getitem (72 + 1) raw1 = (Ok v1, raw1)
    /\ Z.testbit v1 1 = true
    /\ (forall k, k <> 1 -> Z.testbit v1 k = Z.testbit 165 k)
    /\ set_zero 2 1 1 1 image_4x2 = (Ok tt, raw0)
    /\ getitem (72 + 1) raw0 = (Ok v0, raw0)
    /\ Z.testbit v0 1 = false
    /\ (forall k, k <> 1 -> Z.testbit v0 k = Z.testbit 165 k).
Proof.
  apply (set_bit_roundtrip image_4x2 2 1 1 1 4 2 3 24 72 165);
    [reflexivity | reflexivity | reflexivity | lia | lia | lia | lia | lia
    | reflexivity | reflexivity].
Defined.

(** ** What a mutation leaves untouched *)

(** C4, as stated, fails: [apply_bitmask] runs whatever callback it is
    given, and a callback may act on the whole buffer.  Here it calls
    [set_raw_image] of the same object: the call returns, no byte is left
    and the length has changed. *)
Lemma apply_bitmask_callback_resizes :
  let raw := bmp x36 x01 x01 x18 (zeros 4) in
  exists raw',
    apply_bitmask 0 0 0 (fun _ => set_raw_image []) raw = (Ok tt, raw')
    /\ length raw = 58%nat
    /\ length raw' <> length raw
    /\ raw' !! 0%nat <> raw !! 0%nat
    /\ raw' !! 1%nat <> raw !! 1%nat.
Proof. exists []. repeat split; discriminate. Qed.

(** A successful rewrite of one byte keeps the length and every other
    position. *)
Lemma insert_frame (raw : bytearray) n b :
  length (<[n:=b]> raw) = length raw
  /\ forall k, k <> n -> <[n:=b]> raw !! k = raw !! k.
Proof.
  split; [apply length_insert |].
  intros k Hk. by apply list_lookup_insert_ne.
Qed.

(** C4, amended. For every call of [set_one] or [set_zero] that returns,
    and every call of [apply_bitmask] that returns and whose callback only
    rewrites the byte at the offset it is given: the index
    [get_pixel_offset(i, j) + layer] denotes a position of the buffer, the
    final buffer is the initial one with the byte at that position
    rewritten, so its length is unchanged and every other byte, header and
    padding included, is unchanged. *)
Theorem mutation_frame bitmask i j layer sublayer raw raw' :
  rewrites_one_byte bitmask ->
  set_one i j layer sublayer raw = (Ok tt, raw')
  \/ set_zero i j layer sublayer raw = (Ok tt, raw')
  \/ apply_bitmask i j layer bitmask raw = (Ok tt, raw') ->
  exists po n b,
    get_pixel_offset i j raw = (Ok po, raw)
    /\ py_index (length raw) (po + layer) = Some n
    /\ raw' = <[n:=b]> raw
    /\ length raw' = length raw
    /\ forall k, k <> n -> raw' !! k = raw !! k.
Proof.
  intros Hcb Hrun.
  assert (exists bm, rewrites_one_byte bm
                     /\ apply_bitmask i j layer bm raw = (Ok tt, raw'))
    as (bm & Hbm & Happly).
  { destruct Hrun as [Hone | [Hzero | Happly]].
    - exists (bit_bitmask or_bit sublayer).
      split; [apply bit_bitmask_rewrites |].
      rewrite set_one_bit_call, bit_call_run in Hone.
      by destruct (bpp_of raw <=? sublayer).
    - exists (bit_bitmask clear_bit sublayer).
      split; [apply bit_bitmask_rewrites |].
      rewrite set_zero_bit_call, bit_call_run in Hzero.
      by destruct (bpp_of raw <=? sublayer).
    - by exists bitmask. }
  apply apply_bitmask_Ok in Happly as (Hi & Hj & _ & Hcall).
  apply Hbm in Hcall as (n & b & Hn & ->).
  exists (offset_of raw + j * eff_rowsize_of raw + i * Bpp_of raw), n, b.
  rewrite get_pixel_offset_in by done.
  pose proof (insert_frame raw n b) as [Hlen Hother]. done.
Qed.

Lemma mutation_frame_witness :
  exists po n b,
    get_pixel_offset 2 1 image_4x2 = (Ok po, image_4x2)
    /\ py_index (length image_4x2) (po + 1) = Some n
    /\ <[73%nat:=xa7]> image_4x2 = <[n:=b]> image_4x2
    /\ length (<[73%nat:=xa7]> image_4x2) = length image_4x2
    /\ forall k, k <> n -> <[73%nat:=xa7]> image_4x2 !! k = image_4x2 !! k.
Proof.
  apply (mutation_frame (set_one_bitmask 1) 2 1 1 1 image_4x2).
  - apply (bit_bitmask_rewrites or_bit).
  - left. reflexivity.
Defined.

(** ** Rejected coordinates *)

(** C5, as stated, fails: on an image of width 0 both [check_width(0)] and
    [check_width(width - 1)] raise. *)
Lemma check_width_zero_raises :
  let raw := bmp x36 x00 x01 x18 [] in
  get_size raw = (Ok (0, 1), raw)
  /\ check_width 0 raw
     = (Raise (ValueNotInExcludeEnd "Width value out of bounds" 0 0 0), raw)
  /\ check_width (0 - 1) raw
     = (Raise (ValueNotInExcludeEnd "Width value out of bounds" (-1) 0 0), raw).
Proof. repeat split. Qed.

(** C5, amended. Let [width], [height], [Bpp], [bpp] be what the readers
    return.  (a) A call of [set_one] or [set_zero] in which [sublayer >= bpp],
    or [i] is outside [0, width), or [j] is outside [0, height), or
    [layer >= Bpp], raises [ValueNotInExcludeEnd] and leaves the buffer
    unchanged; the exception is that of the first failing check in the
    order sublayer, i, j, layer, and carries the value that check refused
    with the bound [0, end) it violates.  [apply_bitmask], with any
    callback, does the same for [i], [j] and [layer], in that order.  (b)
    [check_width(width)], [check_height(height)], [check_layer(Bpp)] and
    [check_sublayer(bpp)] raise with exactly that value and bound.  (c) When
    [width >= 1], [check_width(0)] and [check_width(width - 1)] return. *)
Theorem out_of_range_raises raw width height Bpp bpp :
  get_size raw = (Ok (width, height), raw) ->
  get_Bpp raw = (Ok Bpp, raw) ->
  get_bpp raw = (Ok bpp, raw) ->
  (forall i j layer sublayer,
      let sublayer_error :=
        ValueNotInExcludeEnd "Sublayer value out of bounds" sublayer 0 bpp in
      let width_error :=
        ValueNotInExcludeEnd "Width value out of bounds" i 0 width in
      let height_error :=
        ValueNotInExcludeEnd "Height value out of bounds" j 0 height in
      let layer_error :=
        ValueNotInExcludeEnd "Layer value out of bounds" layer 0 Bpp in
      (bpp <= sublayer ->
       set_one i j layer sublayer raw = (Raise sublayer_error, raw)
       /\ set_zero i j layer sublayer raw = (Raise sublayer_error, raw))
      /\ (sublayer < bpp -> ~ 0 <= i < width ->
          set_one i j layer sublayer raw = (Raise width_error, raw)
          /\ set_zero i j layer sublayer raw = (Raise width_error, raw))
      /\ (sublayer < bpp -> 0 <= i < width -> ~ 0 <= j < height ->
          set_one i j layer sublayer raw = (Raise height_error, raw)
          /\ set_zero i j layer sublayer raw = (Raise height_error, raw))
      /\ (sublayer < bpp -> 0 <= i < width -> 0 <= j < height -> Bpp <= layer ->
          set_one i j layer sublayer raw = (Raise layer_error, raw)
          /\ set_zero i j layer sublayer raw = (Raise layer_error, raw)))
  /\ (forall i j layer sublayer,
      bpp <= sublayer \/ ~ 0 <= i < width \/ ~ 0 <= j < height \/ Bpp <= layer ->
      exists message x end_,
        set_one i j layer sublayer raw
        = (Raise (ValueNotInExcludeEnd message x 0 end_), raw)
        /\ set_zero i j layer sublayer raw
           = (Raise (ValueNotInExcludeEnd message x 0 end_), raw)
        /\ ((x, end_) = (sublayer, bpp) \/ (x, end_) = (i, width)
            \/ (x, end_) = (j, height) \/ (x, end_) = (layer, Bpp))
        /\ ~ 0 <= x < end_)
  /\ (forall (bitmask : Z -> M unit) i j layer,
      (~ 0 <= i < width ->
       apply_bitmask i j layer bitmask raw
       = (Raise (ValueNotInExcludeEnd "Width value out of bounds" i 0 width), raw))
      /\ (0 <= i < width -> ~ 0 <= j < height ->
          apply_bitmask i j layer bitmask raw
          = (Raise (ValueNotInExcludeEnd "Height value out of bounds" j 0 height),
             raw))
      /\ (0 <= i < width -> 0 <= j < height -> Bpp <= layer ->
          apply_bitmask i j layer bitmask raw
          = (Raise (ValueNotInExcludeEnd "Layer value out of bounds" layer 0 Bpp),
             raw)))
  /\ check_width width raw
     = (Raise (ValueNotInExcludeEnd "Width value out of bounds" width 0 width), raw)
  /\ check_height height raw
     = (Raise (ValueNotInExcludeEnd "Height value out of bounds" height 0 height), raw)
  /\ check_layer Bpp raw
     = (Raise (ValueNotInExcludeEnd "Layer value out of bounds" Bpp 0 Bpp), raw)
  /\ check_sublayer bpp raw
     = (Raise (ValueNotInExcludeEnd "Sublayer value out of bounds" bpp 0 bpp), raw)
  /\ (1 <= width ->
      check_width 0 raw = (Ok tt, raw)
      /\ check_width (width - 1) raw = (Ok tt, raw)).
Proof.
  rewrite get_size_run, get_Bpp_run, get_bpp_run.
  intros [= <- <-] [= <-] [= <-].
  assert (forall (bitmask : Z -> M unit) i j layer,
             (~ 0 <= i < width_of raw ->
              apply_bitmask i j layer bitmask raw
              = (Raise (ValueNotInExcludeEnd "Width value out of bounds"
                          i 0 (width_of raw)), raw))
             /\ (0 <= i < width_of raw -> ~ 0 <= j < height_of raw ->
                 apply_bitmask i j layer bitmask raw
                 = (Raise (ValueNotInExcludeEnd "Height value out of bounds"
                             j 0 (height_of raw)), raw))
             /\ (0 <= i < width_of raw -> 0 <= j < height_of raw ->
                 Bpp_of raw <= layer ->
                 apply_bitmask i j layer bitmask raw
                 = (Raise (ValueNotInExcludeEnd "Layer value out of bounds"
                             layer 0 (Bpp_of raw)), raw))) as Happly.
  { intros bitmask i j layer. rewrite apply_bitmask_run. split; [| split].
    - intros Hi. by rewrite (out_of_range_test i).
    - intros Hi Hj. by rewrite (in_range_test i), (out_of_range_test j).
    - intros Hi Hj Hl. rewrite (in_range_test i), (in_range_test j) by done.
      destruct (Z.leb_spec (Bpp_of raw) layer); [done | lia]. }
  assert (forall i j layer sublayer,
             (bpp_of raw <= sublayer ->
              forall op,
                bit_call op i j layer sublayer raw
                = (Raise (ValueNotInExcludeEnd "Sublayer value out of bounds"
                            sublayer 0 (bpp_of raw)), raw))
             /\ (sublayer < bpp_of raw ->
                 forall op,
                   bit_call op i j layer sublayer raw
                   = apply_bitmask i j layer (bit_bitmask op sublayer) raw))
    as Hcall.
  { intros i j layer sublayer.
    split; intros Hs op; rewrite bit_call_run;
      destruct (Z.leb_spec (bpp_of raw) sublayer); (done || lia). }
  assert (forall i j layer sublayer,
      (bpp_of raw <= sublayer ->
       set_one i j layer sublayer raw
       = (Raise (ValueNotInExcludeEnd "Sublayer value out of bounds"
                   sublayer 0 (bpp_of raw)), raw)
       /\ set_zero i j layer sublayer raw
          = (Raise (ValueNotInExcludeEnd "Sublayer value out of bounds"
                      sublayer 0 (bpp_of raw)), raw))
      /\ (sublayer < bpp_of raw -> ~ 0 <= i < width_of raw ->
          set_one i j layer sublayer raw
          = (Raise (ValueNotInExcludeEnd "Width value out of bounds"
                      i 0 (width_of raw)), raw)
          /\ set_zero i j layer sublayer raw
             = (Raise (ValueNotInExcludeEnd "Width value out of bounds"
                         i 0 (width_of raw)), raw))
      /\ (sublayer < bpp_of raw -> 0 <= i < width_of raw ->
          ~ 0 <= j < height_of raw ->
          set_one i j layer sublayer raw
          = (Raise (ValueNotInExcludeEnd "Height value out of bounds"
                      j 0 (height_of raw)), raw)
          /\ set_zero i j layer sublayer raw
             = (Raise (ValueNotInExcludeEnd "Height value out of bounds"
                         j 0 (height_of raw)), raw))
      /\ (sublayer < bpp_of raw -> 0 <= i < width_of raw ->
          0 <= j < height_of raw -> Bpp_of raw <= layer ->
          set_one i j layer sublayer raw
          = (Raise (ValueNotInExcludeEnd "Layer value out of bounds"
                      layer 0 (Bpp_of raw)), raw)
          /\ set_zero i j layer sublayer raw
             = (Raise (ValueNotInExcludeEnd "Layer value out of bounds"
                         layer 0 (Bpp_of raw)), raw))) as Hordered.
  { intros i j layer sublayer.
    rewrite set_one_bit_call, set_zero_bit_call.
    destruct (Hcall i j layer sublayer) as [Hhigh Hlow].
    split; [| split; [| split]].
    - intros Hs. by rewrite !Hhigh.
    - intros Hs Hi. rewrite !Hlow by done.
      split; by apply Happly.
    - intros Hs Hi Hj. rewrite !Hlow by done.
      split; by apply Happly.
    - intros Hs Hi Hj Hl. rewrite !Hlow by done.
      split; by apply Happly. }
  split; [exact Hordered |]. split; [| split; [exact Happly |]].
  - intros i j layer sublayer Hbad.
    destruct (Hordered i j layer sublayer) as (Hsub & Hwid & Hhei & Hlay).
    destruct (Z.le_gt_cases (bpp_of raw) sublayer) as [Hs | Hs].
    { destruct (Hsub Hs) as [-> ->]. do 3 eexists.
      do 2 (split; [reflexivity |]). split; [by left | lia]. }
    destruct (decide (0 <= i < width_of raw)) as [Hi | Hi].
    2: { destruct (Hwid Hs Hi) as [-> ->]. do 3 eexists.
         do 2 (split; [reflexivity |]). split; [right; by left | done]. }
    destruct (decide (0 <= j < height_of raw)) as [Hj | Hj].
    2: { destruct (Hhei Hs Hi Hj) as [-> ->]. do 3 eexists.
         do 2 (split; [reflexivity |]).
         split; [right; right; by left | done]. }
    assert (Bpp_of raw <= layer) as Hl
        by (destruct Hbad as [? | [? | [? | ?]]]; (done || lia)).
    destruct (Hlay Hs Hi Hj Hl) as [-> ->]. do 3 eexists.
    do 2 (split; [reflexivity |]). split; [right; right; by right | lia].
  - rewrite check_width_run, check_height_run, check_layer_run, check_sublayer_run.
    rewrite !Z.leb_refl, !orb_true_r. do 4 (split; [reflexivity |]).
    intros Hw. rewrite !check_width_run.
    by rewrite (in_range_test 0), (in_range_test (width_of raw - 1)) by lia.
Qed.

Lemma out_of_range_raises_witness :
  set_one 4 5 7 0 image_4x2
  = (Raise (ValueNotInExcludeEnd "Width value out of bounds" 4 0 4), image_4x2)
  /\ set_zero 2 5 7 0 image_4x2
     = (Raise (ValueNotInExcludeEnd "Height value out of bounds" 5 0 2), image_4x2)
  /\ set_one 4 5 7 24 image_4x2
     = (Raise (ValueNotInExcludeEnd "Sublayer value out of bounds" 24 0 24),
        image_4x2)
  /\ set_zero 2 1 7 0 image_4x2
     = (Raise (ValueNotInExcludeEnd "Layer value out of bounds" 7 0 3), image_4x2)
  /\ check_width 4 image_4x2
     = (Raise (ValueNotInExcludeEnd "Width value out of bounds" 4 0 4), image_4x2)
  /\ check_width 0 image_4x2 = (Ok tt, image_4x2)
  /\ check_width (4 - 1) image_4x2 = (Ok tt, image_4x2).
Proof.
  destruct (out_of_range_raises image_4x2 4 2 3 24 eq_refl eq_refl eq_refl)
    as (Hordered & _ & _ & Hwidth & _ & _ & _ & Hedge).
  split; [apply (Hordered 4 5 7 0); lia |].
  split; [apply (Hordered 2 5 7 0); lia |].
  split; [apply (Hordered 4 5 7 24); lia |].
  split; [apply (Hordered 2 1 7 0); lia |].
  split; [exact Hwidth |]. apply Hedge. lia.
Defined.

(** ** Reading the header *)

(** C6: the documentation of [get_size] announces signed integers, and the
    call reads unsigned ones.  On a 30-byte buffer whose width field is
    [FF FF FF FF] it returns 4294967295 where the signed reading is -1. *)
Theorem get_size_reads_unsigned :
  let raw := zeros 18 ++ [xff; xff; xff; xff] ++ [x01; x00; x00; x00] ++ zeros 4 in
  length raw = 30%nat
  /\ get_size raw = (Ok (4294967295, 1), raw)
  /\ int32_from_bytes_little (slice 18 22 raw) = -1
  /\ int32_from_bytes_little (slice 22 26 raw) = 1.
Proof. repeat split. Qed.

(** No buffer makes [get_size] return a negative dimension, and the value
    it returns is the signed reading exactly when it is below [2^31]. *)
Lemma get_size_unsigned raw :
  exists width height,
    get_size raw = (Ok (width, height), raw)
    /\ 0 <= width < 2 ^ 32 /\ 0 <= height < 2 ^ 32.
Proof.
  exists (width_of raw), (height_of raw). rewrite get_size_run.
  split; [reflexivity |]. split; [apply width_of_range | apply height_of_range].
Qed.

Lemma int32_agrees_iff bs :
  int32_from_bytes_little bs = int_from_bytes_little bs
  <-> int_from_bytes_little bs < 2 ^ 31.
Proof.
  unfold int32_from_bytes_little.
  destruct (Z.ltb_spec (int_from_bytes_little bs) (2 ^ 31)); lia.
Qed.

Lemma int_from_bytes_take_drop n a (raw : bytearray) :
  int_from_bytes_little (take (S n) (drop a raw))
  = byte_or_zero raw a + 256 * int_from_bytes_little (take n (drop (S a) raw)).
Proof.
  unfold byte_or_zero.
  replace (raw !! a) with (drop a raw !! 0%nat)
    by (rewrite lookup_drop; f_equal; lia).
  replace (S a) with (a + 1)%nat by lia. rewrite <- drop_drop.
  destruct (drop a raw) as [| b rest].
  - by rewrite drop_nil, !take_nil.
  - by rewrite firstn_cons, skipn_cons, drop_0.
Qed.

Lemma field4 a (raw : bytearray) :
  int_from_bytes_little (take 4 (drop a raw))
  = byte_or_zero raw a + 256 * byte_or_zero raw (a + 1)
    + 256 ^ 2 * byte_or_zero raw (a + 2) + 256 ^ 3 * byte_or_zero raw (a + 3).
Proof.
  rewrite !int_from_bytes_take_drop, take_0. cbn [int_from_bytes_little].
  replace (S a) with (a + 1)%nat by lia.
  replace (S (a + 1)) with (a + 2)%nat by lia.
  replace (S (a + 2)) with (a + 3)%nat by lia. lia.
Qed.

Lemma field2 a (raw : bytearray) :
  int_from_bytes_little (take 2 (drop a raw))
  = byte_or_zero raw a + 256 * byte_or_zero raw (a + 1).
Proof.
  rewrite !int_from_bytes_take_drop, take_0. cbn [int_from_bytes_little].
  replace (S a) with (a + 1)%nat by lia. lia.
Qed.

(** C7, as stated, fails: on a 12-byte buffer the three readers return.
    The payload offset comes out of the two bytes of its field that exist;
    the dimensions and the bit depth, none of whose bytes exist, are 0. *)
Lemma short_buffer_reads_return :
  let raw := zeros 10 ++ [x36; x01] in
  (length raw < 30)%nat
  /\ get_offset raw = (Ok 310, raw)
  /\ get_size raw = (Ok (0, 0), raw)
  /\ get_bpp raw = (Ok 0, raw).
Proof. cbn. repeat split. lia. Qed.

(** C7, amended. On every buffer, shorter than 30 bytes or not, reading the
    payload offset, the dimensions or the bits per pixel returns and leaves
    the buffer as it is: the value is the unsigned little-endian integer of
    the bytes of the field that the buffer has, a missing byte counting
    for 0. *)
Theorem header_reads_total raw :
  get_offset raw
  = (Ok (byte_or_zero raw 10 + 256 * byte_or_zero raw 11
         + 256 ^ 2 * byte_or_zero raw 12 + 256 ^ 3 * byte_or_zero raw 13), raw)
  /\ get_size raw
     = (Ok (byte_or_zero raw 18 + 256 * byte_or_zero raw 19
            + 256 ^ 2 * byte_or_zero raw 20 + 256 ^ 3 * byte_or_zero raw 21,
            byte_or_zero raw 22 + 256 * byte_or_zero raw 23
            + 256 ^ 2 * byte_or_zero raw 24 + 256 ^ 3 * byte_or_zero raw 25), raw)
  /\ get_bpp raw = (Ok (byte_or_zero raw 28 + 256 * byte_or_zero raw 29), raw).
Proof.
  rewrite get_offset_run, get_size_run, get_bpp_run.
  unfold offset_of, width_of, height_of, bpp_of.
  rewrite !slice_take_drop by lia.
  change (Z.to_nat (14 - 10)) with 4%nat. change (Z.to_nat (22 - 18)) with 4%nat.
  change (Z.to_nat (26 - 22)) with 4%nat. change (Z.to_nat (30 - 28)) with 2%nat.
  change (Z.to_nat 10) with 10%nat. change (Z.to_nat 18) with 18%nat.
  change (Z.to_nat 22) with 22%nat. change (Z.to_nat 28) with 28%nat.
  by rewrite !field4, field2.
Qed.

(** ** Replacing the pixel array *)

Lemma set_payload_run payload raw :
  set_payload payload raw =
    if negb (Z.of_nat (length payload) =? payload_size_of raw)
    then (Raise (ValueError "Error"), raw)
    else (Ok tt, slice_assign (offset_of raw) (offset_of raw + payload_size_of raw)
                   payload raw).
Proof.
  unfold set_payload, bind. rewrite get_offset_run, get_payload_size_run.
  by destruct (negb (Z.of_nat (length payload) =? payload_size_of raw)).
Qed.

(** C8, as stated, fails: on a buffer that ends before the end of the range
    the slice assignment replaces the part of the range that exists by the
    whole payload, and the buffer grows.  Here the header announces 4 bytes
    of pixels at offset 54 and the buffer has none: 4 bytes are appended. *)
Lemma set_payload_grows_short_buffer :
  let raw := bmp x36 x01 x01 x08 [] in
  let payload := [x01; x02; x03; x04] in
  get_offset raw = (Ok 54, raw)
  /\ get_payload_size raw = (Ok 4, raw)
  /\ length raw = 54%nat
  /\ set_payload payload raw = (Ok tt, raw ++ payload)
  /\ length (raw ++ payload) <> length raw.
Proof. cbn. repeat split. lia. Qed.

(** C8, amended. With [start] the payload offset and [payload_size] the
    payload size of the buffer: a payload of any other length makes
    [set_payload] raise [ValueError] and leaves the buffer unchanged; a
    payload of exactly that length, when the range
    [start, start + payload_size) lies inside the buffer, makes it return
    with a buffer of the same length that holds the payload in that range
    and the former bytes everywhere else. *)
Theorem set_payload_spec raw payload start payload_size :
  get_offset raw = (Ok start, raw) ->
  get_payload_size raw = (Ok payload_size, raw) ->
  (Z.of_nat (length payload) <> payload_size ->
   set_payload payload raw = (Raise (ValueError "Error"), raw))
  /\ (Z.of_nat (length payload) = payload_size ->
      start + payload_size <= Z.of_nat (length raw) ->
      exists raw',
        set_payload payload raw = (Ok tt, raw')
        /\ length raw' = length raw
        /\ (forall k : nat,
               start <= Z.of_nat k < start + payload_size ->
               raw' !! k = payload !! (k - Z.to_nat start)%nat)
        /\ (forall k : nat,
               ~ start <= Z.of_nat k < start + payload_size ->
               raw' !! k = raw !! k)).
Proof.
  rewrite get_offset_run, get_payload_size_run. intros [= <-] [= <-].
  pose proof (offset_of_range raw) as Hstart.
  pose proof (payload_size_of_nonneg raw) as Hsize.
  rewrite set_payload_run. split.
  - intros Hlen. by destruct (Z.eqb_spec (Z.of_nat (length payload)) (payload_size_of raw)).
  - intros Hlen Hin.
    destruct (Z.eqb_spec (Z.of_nat (length payload)) (payload_size_of raw));
      [| done].
    cbn [negb]. eexists. split; [reflexivity |].
    rewrite slice_assign_inside by lia.
    set (s := Z.to_nat (offset_of raw)).
    set (t := Z.to_nat (offset_of raw + payload_size_of raw)).
    assert (length (take s raw) = s) as Htake
        by (rewrite length_take; lia).
    assert (t = (s + length payload)%nat) as Ht by lia.
    split; [| split].
    + rewrite !length_app, Htake, length_drop. lia.
    + intros k Hk. rewrite lookup_app_r by lia.
      rewrite lookup_app_l by lia. by rewrite Htake.
    + intros k Hk. destruct (Nat.lt_ge_cases k s) as [Hlow | Hhigh].
      * rewrite lookup_app_l by lia. by apply lookup_take_lt.
      * rewrite lookup_app_r by lia. rewrite lookup_app_r by lia.
        rewrite lookup_drop, Htake. f_equal. lia.
Qed.

Lemma set_payload_spec_witness :
  let raw := bmp x36 x02 x01 x18 (zeros 8) in
  let payload := [x01; x02; x03; x04; x05; x06; x07; x08] in
  set_payload [x01] raw = (Raise (ValueError "Error"), raw)
  /\ exists raw',
      set_payload payload raw = (Ok tt, raw')
      /\ length raw' = length raw
      /\ (forall k : nat,
             54 <= Z.of_nat k < 54 + 8 ->
             raw' !! k = payload !! (k - Z.to_nat 54)%nat)
      /\ (forall k : nat,
             ~ 54 <= Z.of_nat k < 54 + 8 ->
             raw' !! k = raw !! k).
Proof.
  split.
  - apply (set_payload_spec (bmp x36 x02 x01 x18 (zeros 8)) [x01] 54 8);
      [reflexivity | reflexivity | cbn; lia].
  - apply (set_payload_spec (bmp x36 x02 x01 x18 (zeros 8))
             [x01; x02; x03; x04; x05; x06; x07; x08] 54 8);
      [reflexivity | reflexivity | reflexivity | cbn; lia].
Defined.

(** ** Repeating a bit operation *)

Lemma getitem_fst_ext k (raw raw' : bytearray) :
  length raw' = length raw ->
  (forall n, py_index (length raw) k = Some n -> raw' !! n = raw !! n) ->
  fst (getitem k raw') = fst (getitem k raw).
Proof.
  intros Hlen Hsame. unfold getitem. rewrite Hlen.
  destruct (py_index (length raw) k) as [n |]; [| done].
  rewrite (Hsame n) by done. by destruct (raw !! n).
Qed.

Section Idempotent.
Variable op : Z -> Z -> Z.
Hypothesis op_idem : forall s v, op s (op s v) = op s v.

(** Whatever the arguments, the byte the first call aimed at reads the
    same after a second call: a failed call changes nothing, and a
    second call that returns has either rewritten another byte or applied
    the operator once more to this one. *)
Lemma bit_call_twice i j layer sublayer raw :
  let target := offset_of raw + j * eff_rowsize_of raw + i * Bpp_of raw + layer in
  let once := snd (bit_call op i j layer sublayer raw) in
  let twice := snd (bit_call op i j layer sublayer once) in
  fst (getitem target twice) = fst (getitem target once).
Proof.
  intros target once twice. subst once twice.
  destruct (bit_call op i j layer sublayer raw) as [[[] | e] raw1] eqn:H1;
    cbn [snd].
  2: { pose proof (bit_call_Raise _ _ _ _ _ _ _ _ H1) as ->. by rewrite H1. }
  apply bit_call_Ok in H1
    as (_ & _ & _ & _ & n & b & b1 & Hn & Hb & Hb1 & ->).
  fold target in Hn.
  destruct (bit_call op i j layer sublayer (<[n:=b1]> raw))
    as [[[] | e] raw2] eqn:H2; cbn [snd].
  2: { by apply bit_call_Raise in H2 as ->. }
  apply bit_call_Ok in H2
    as (_ & _ & _ & _ & n2 & b2 & b2' & _ & Hb2 & Hb2' & ->).
  apply getitem_fst_ext; [apply length_insert |].
  rewrite length_insert. intros m Hm.
  assert (m = n) as -> by congruence.
  destruct (decide (n2 = n)) as [-> | Hne].
  - rewrite list_lookup_insert_eq in Hb2 by (by apply py_index_lt with target).
    injection Hb2 as <-.
    rewrite list_lookup_insert_eq
      by (rewrite length_insert; by apply py_index_lt with target).
    rewrite list_lookup_insert_eq by (by apply py_index_lt with target).
    f_equal. apply byte_to_Z_inj.
    by rewrite Hb2', Hb1, op_idem.
  - by rewrite list_lookup_insert_ne.
Qed.
End Idempotent.

(** C9. For every buffer and every in-bounds (i, j, layer, sublayer),
    reading the byte at [get_pixel_offset(i, j) + layer] after the second of
    two identical [set_one] calls gives what it gave after the first, and
    the same holds for [set_zero]. *)
Theorem set_bit_idempotent raw i j layer sublayer width height Bpp bpp po :
  get_size raw = (Ok (width, height), raw) ->
  get_Bpp raw = (Ok Bpp, raw) ->
  get_bpp raw = (Ok bpp, raw) ->
  0 <= i < width -> 0 <= j < height -> 0 <= layer < Bpp -> 0 <= sublayer < bpp ->
  get_pixel_offset i j raw = (Ok po, raw) ->
  (let once := snd (set_one i j layer sublayer raw) in
   let twice := snd (set_one i j layer sublayer once) in
   fst (getitem (po + layer) twice) = fst (getitem (po + layer) once))
  /\
  (let once := snd (set_zero i j layer sublayer raw) in
   let twice := snd (set_zero i j layer sublayer once) in
   fst (getitem (po + layer) twice) = fst (getitem (po + layer) once)).
Proof.
  rewrite get_size_run, get_Bpp_run, get_bpp_run.
  intros [= <- <-] [= <-] [= <-] Hi Hj Hl Hs.
  rewrite get_pixel_offset_in by done. intros [= <-].
  rewrite set_one_bit_call, set_zero_bit_call. split.
  - apply (bit_call_twice or_bit or_bit_idem).
  - apply (bit_call_twice clear_bit clear_bit_idem).
Qed.

Lemma set_bit_idempotent_witness :
  (let once := snd (set_one 2 1 1 1 image_4x2) in
   let twice := snd (set_one 2 1 1 1 once) in
   fst (getitem (72 + 1) twice) = fst (getitem (72 + 1) once))
  /\
  (let once := snd (set_zero 2 1 1 7 image_4x2) in
   let twice := snd (set_zero 2 1 1 7 once) in
   fst (getitem (72 + 1) twice) = fst (getitem (72 + 1) once)).
Proof.
  split.
  - apply (set_bit_idempotent image_4x2 2 1 1 1 4 2 3 24 72);
      [reflexivity | reflexivity | reflexivity | lia | lia | lia | lia | reflexivity].
  - apply (set_bit_idempotent image_4x2 2 1 1 7 4 2 3 24 72);
      [reflexivity | reflexivity | reflexivity | lia | lia | lia | lia | reflexivity].
Defined.

(** ** Negative layers *)

(** C10, as stated, fails: a negative layer can take the offset below 0,
    and a negative index counts from the end of the buffer.  With the
    pixel array at 54 and layer -55 the byte rewritten for pixel (0, 0) is
    the last byte of the buffer, inside the pixel array. *)
Lemma negative_layer_wraps_to_end :
  get_offset image_4x2 = (Ok 54, image_4x2)
  /\ length image_4x2 = 78%nat
  /\ check_layer (-55) image_4x2 = (Ok tt, image_4x2)
  /\ set_one 0 0 (-55) 1 image_4x2 = (Ok tt, <[77%nat:=xa7]> image_4x2)
  /\ ~ (77 < 54).
Proof. repeat split. lia. Qed.

(** C10, amended. Let (i, j) be in bounds, [0 <= sublayer < 8] with
    [sublayer < bpp], [layer] negative, and let
    [get_pixel_offset(i, j) + layer] be a position of the buffer (at least
    0, below its length).  Then [check_layer] accepts the layer, and
    [set_one] and [set_zero] return, having rewritten the byte at that
    position, with the bit set and cleared respectively; for pixel (0, 0)
    the position is [payload_offset + layer], strictly before the pixel
    array. *)
Theorem negative_layer_accepted raw i j layer sublayer width height bpp po :
  get_size raw = (Ok (width, height), raw) ->
  get_bpp raw = (Ok bpp, raw) ->
  0 <= i < width -> 0 <= j < height ->
  0 <= sublayer < 8 -> sublayer < bpp ->
  layer < 0 ->
  get_pixel_offset i j raw = (Ok po, raw) ->
  0 <= po + layer < Z.of_nat (length raw) ->
  check_layer layer raw = (Ok tt, raw)
  /\ (exists b b1 b0,
         raw !! Z.to_nat (po + layer) = Some b
         /\ set_one i j layer sublayer raw
            = (Ok tt, <[Z.to_nat (po + layer):=b1]> raw)
         /\ byte_to_Z b1 = Z.lor (byte_to_Z b) (Z.shiftl 1 sublayer)
         /\ set_zero i j layer sublayer raw
            = (Ok tt, <[Z.to_nat (po + layer):=b0]> raw)
         /\ byte_to_Z b0
            = Z.land (byte_to_Z b) (Z.lxor 255 (Z.shiftl 1 sublayer)))
  /\ (i = 0 -> j = 0 ->
      exists payload_offset,
        get_offset raw = (Ok payload_offset, raw)
        /\ po + layer = payload_offset + layer
        /\ po + layer < payload_offset).
Proof.
  rewrite get_size_run, get_bpp_run.
  intros [= <- <-] [= <-] Hi Hj Hs8 Hs Hneg.
  rewrite get_pixel_offset_in by done. intros [= <-] Hpos.
  pose proof (Bpp_of_pos raw) as HB.
  set (target := offset_of raw + j * eff_rowsize_of raw + i * Bpp_of raw + layer)
    in *.
  split; [| split].
  - rewrite check_layer_run.
    destruct (Z.leb_spec (Bpp_of raw) layer); [lia | done].
  - pose proof (py_index_nonneg (length raw) target Hpos) as Hn.
    destruct (lookup_is_Some_of_index raw target _ Hn) as [b Hb].
    pose proof (byte_to_Z_range b) as Hrange.
    destruct (byte_of_Z_in_range _ (or_bit_range sublayer _ Hs8 Hrange))
      as [b1 Hb1].
    destruct (byte_of_Z_in_range _
                (clear_bit_range sublayer _ (proj1 Hs8) Hrange)) as [b0 Hb0].
    exists b, b1, b0.
    rewrite set_one_bit_call, set_zero_bit_call.
    rewrite (bit_call_at or_bit i j layer sublayer _ b b1) by (done || lia).
    rewrite (bit_call_at clear_bit i j layer sublayer _ b b0) by (done || lia).
    rewrite (byte_to_of_Z _ _ Hb1), (byte_to_of_Z _ _ Hb0). done.
  - intros -> ->. exists (offset_of raw). rewrite get_offset_run.
    subst target. repeat split; lia.
Qed.

Lemma negative_layer_accepted_witness :
  check_layer (-1) image_4x2 = (Ok tt, image_4x2)
  /\ (exists b b1 b0,
         image_4x2 !! Z.to_nat (54 + -1) = Some b
         /\ set_one 0 0 (-1) 1 image_4x2
            = (Ok tt, <[Z.to_nat (54 + -1):=b1]> image_4x2)
         /\ byte_to_Z b1 = Z.lor (byte_to_Z b) (Z.shiftl 1 1)
         /\ set_zero 0 0 (-1) 1 image_4x2
            = (Ok tt, <[Z.to_nat (54 + -1):=b0]> image_4x2)
         /\ byte_to_Z b0 = Z.land (byte_to_Z b) (Z.lxor 255 (Z.shiftl 1 1)))
  /\ (0 = 0 -> 0 = 0 ->
      exists payload_offset,
        get_offset image_4x2 = (Ok payload_offset, image_4x2)
        /\ 54 + -1 = payload_offset + -1
        /\ 54 + -1 < payload_offset).
Proof.
  apply (negative_layer_accepted image_4x2 0 0 (-1) 1 4 2 24 54);
    [reflexivity | reflexivity | lia | lia | lia | lia | lia | reflexivity
    | cbn; lia].
Defined.

(** * Further properties of the class *)

(** ** The header occupies the first 30 bytes *)

Lemma offset_of_bytes raw :
  offset_of raw
  = byte_or_zero raw 10 + 256 * byte_or_zero raw 11
    + 256 ^ 2 * byte_or_zero raw 12 + 256 ^ 3 * byte_or_zero raw 13.
Proof.
  unfold offset_of. rewrite slice_take_drop by lia.
  change (Z.to_nat (14 - 10)) with 4%nat. change (Z.to_nat 10) with 10%nat.
  apply field4.
Qed.

Lemma width_of_bytes raw :
  width_of raw
  = byte_or_zero raw 18 + 256 * byte_or_zero raw 19
    + 256 ^ 2 * byte_or_zero raw 20 + 256 ^ 3 * byte_or_zero raw 21.
Proof.
  unfold width_of. rewrite slice_take_drop by lia.
  change (Z.to_nat (22 - 18)) with 4%nat. change (Z.to_nat 18) with 18%nat.
  apply field4.
Qed.

Lemma height_of_bytes raw :
  height_of raw
  = byte_or_zero raw 22 + 256 * byte_or_zero raw 23
    + 256 ^ 2 * byte_or_zero raw 24 + 256 ^ 3 * byte_or_zero raw 25.
Proof.
  unfold height_of. rewrite slice_take_drop by lia.
  change (Z.to_nat (26 - 22)) with 4%nat. change (Z.to_nat 22) with 22%nat.
  apply field4.
Qed.

Lemma bpp_of_bytes raw :
  bpp_of raw = byte_or_zero raw 28 + 256 * byte_or_zero raw 29.
Proof.
  unfold bpp_of. rewrite slice_take_drop by lia.
  change (Z.to_nat (30 - 28)) with 2%nat. change (Z.to_nat 28) with 28%nat.
  apply field2.
Qed.

(** Two buffers with the same first 30 positions have the same header
    fields, hence the same geometry. *)
Lemma header_agree (raw raw' : bytearray) :
  (forall k, (k < 30)%nat -> raw' !! k = raw !! k) ->
  offset_of raw' = offset_of raw /\ width_of raw' = width_of raw
  /\ height_of raw' = height_of raw /\ bpp_of raw' = bpp_of raw.
Proof.
  intros Hsame.
  assert (forall k, (k < 30)%nat -> byte_or_zero raw' k = byte_or_zero raw k)
    as Hbyte by (intros k Hk; unfold byte_or_zero; by rewrite Hsame).
  rewrite !offset_of_bytes, !width_of_bytes, !height_of_bytes, !bpp_of_bytes.
  rewrite !Hbyte by lia. done.
Qed.

Lemma geometry_agree (raw raw' : bytearray) :
  (forall k, (k < 30)%nat -> raw' !! k = raw !! k) ->
  offset_of raw' = offset_of raw /\ width_of raw' = width_of raw
  /\ height_of raw' = height_of raw /\ bpp_of raw' = bpp_of raw
  /\ Bpp_of raw' = Bpp_of raw /\ eff_rowsize_of raw' = eff_rowsize_of raw
  /\ payload_size_of raw' = payload_size_of raw.
Proof.
  intros (Ho & Hw & Hh & Hb)%header_agree.
  unfold payload_size_of, eff_rowsize_of, padding_of, Bpp_of.
  rewrite Ho, Hw, Hh, Hb. done.
Qed.

Lemma insert_keeps_header (raw : bytearray) n b k :
  (30 <= n)%nat -> (k < 30)%nat -> <[n:=b]> raw !! k = raw !! k.
Proof. intros Hn Hk. apply list_lookup_insert_ne. lia. Qed.

(** ** Ranges of the fields and of the geometry *)

(** Whatever the buffer, the readers return unsigned values of the width
    of their field, [get_Bpp] is at least 1 and [8 * Bpp] does not exceed
    the bit depth once that is 8 or more, and no size is negative. *)
Theorem geometry_ranges raw :
  exists start width height bpp Bpp rowsize eff payload_size,
    get_offset raw = (Ok start, raw)
    /\ get_size raw = (Ok (width, height), raw)
    /\ get_bpp raw = (Ok bpp, raw)
    /\ get_Bpp raw = (Ok Bpp, raw)
    /\ get_rowsize raw = (Ok rowsize, raw)
    /\ get_eff_rowsize raw = (Ok eff, raw)
    /\ get_payload_size raw = (Ok payload_size, raw)
    /\ 0 <= start < 2 ^ 32 /\ 0 <= width < 2 ^ 32 /\ 0 <= height < 2 ^ 32
    /\ 0 <= bpp < 2 ^ 16
    /\ 1 <= Bpp <= 8191 /\ (8 <= bpp -> 8 * Bpp <= bpp < 8 * Bpp + 8)
    /\ 8 * (rowsize - 1) < bpp * width <= 8 * rowsize
    /\ rowsize <= eff <= rowsize + 3
    /\ payload_size = height * eff /\ 0 <= payload_size.
Proof.
  exists (offset_of raw), (width_of raw), (height_of raw), (bpp_of raw),
    (Bpp_of raw), (ceil_div8 (bpp_of raw * width_of raw)),
    (eff_rowsize_of raw), (payload_size_of raw).
  rewrite get_offset_run, get_size_run, get_bpp_run, get_Bpp_run,
    get_rowsize_run, get_eff_rowsize_run, get_payload_size_run.
  do 7 (split; [reflexivity |]).
  pose proof (offset_of_range raw). pose proof (width_of_range raw).
  pose proof (height_of_range raw). pose proof (bpp_of_range raw) as Hbpp.
  pose proof (padding_of_range raw).
  pose proof (ceil_div8_spec (bpp_of raw * width_of raw)).
  pose proof (payload_size_of_nonneg raw).
  do 4 (split; [done |]).
  split; [| split].
  - unfold Bpp_of. change (2 ^ 16) with 65536 in Hbpp.
    Z.div_mod_to_equations. lia.
  - intros H8. unfold Bpp_of. Z.div_mod_to_equations. lia.
  - split; [done |]. split; [unfold eff_rowsize_of; lia |]. done.
Qed.

(** ** Rows of whole-byte pixels *)

Lemma whole_byte_pixels raw :
  8 <= bpp_of raw ->
  width_of raw * Bpp_of raw <= ceil_div8 (bpp_of raw * width_of raw).
Proof.
  intros H8. pose proof (width_of_range raw) as Hw.
  pose proof (ceil_div8_spec (bpp_of raw * width_of raw)) as Hc.
  assert (8 * Bpp_of raw <= bpp_of raw)
    by (unfold Bpp_of; Z.div_mod_to_equations; lia).
  nia.
Qed.

(** When the bit depth is a positive multiple of 8, a row holds exactly
    [width * Bpp] bytes of pixels and the effective row size is the least
    multiple of 4 that is not below it. *)
Theorem eff_rowsize_aligned raw width height bpp Bpp :
  get_size raw = (Ok (width, height), raw) ->
  get_bpp raw = (Ok bpp, raw) ->
  get_Bpp raw = (Ok Bpp, raw) ->
  0 < bpp -> bpp mod 8 = 0 ->
  bpp = 8 * Bpp
  /\ get_rowsize raw = (Ok (width * Bpp), raw)
  /\ exists eff,
      get_eff_rowsize raw = (Ok eff, raw)
      /\ eff mod 4 = 0 /\ width * Bpp <= eff < width * Bpp + 4.
Proof.
  rewrite get_size_run, get_bpp_run, get_Bpp_run.
  intros [= <- <-] [= <-] [= <-] Hpos Hmod.
  assert (bpp_of raw = 8 * Bpp_of raw) as H8
      by (unfold Bpp_of; Z.div_mod_to_equations; lia).
  assert (ceil_div8 (bpp_of raw * width_of raw) = width_of raw * Bpp_of raw)
    as Hrow.
  { rewrite H8. unfold ceil_div8.
    replace (- (8 * Bpp_of raw * width_of raw))
      with ((- (width_of raw * Bpp_of raw)) * 8) by lia.
    rewrite Z.div_mul by lia. lia. }
  split; [done |]. split; [by rewrite get_rowsize_run, Hrow |].
  exists (eff_rowsize_of raw). split; [apply get_eff_rowsize_run |].
  unfold eff_rowsize_of, padding_of. rewrite Hrow.
  generalize (width_of raw * Bpp_of raw). intros m.
  split; Z.div_mod_to_equations; lia.
Qed.

Lemma eff_rowsize_aligned_witness :
  get_rowsize image_4x2 = (Ok (4 * 3), image_4x2)
  /\ exists eff,
      get_eff_rowsize image_4x2 = (Ok eff, image_4x2)
      /\ eff mod 4 = 0 /\ 4 * 3 <= eff < 4 * 3 + 4.
Proof.
  apply (eff_rowsize_aligned image_4x2 4 2 24 3);
    [reflexivity | reflexivity | reflexivity | lia | reflexivity].
Defined.

(** ** Where an accepted access lands *)

Lemma target_in_row raw i j layer :
  8 <= bpp_of raw ->
  0 <= i < width_of raw -> 0 <= j < height_of raw -> 0 <= layer < Bpp_of raw ->
  0 <= i * Bpp_of raw + layer < eff_rowsize_of raw.
Proof.
  intros H8 Hi Hj Hl.
  pose proof (whole_byte_pixels raw H8) as Hrow.
  pose proof (padding_of_range raw) as Hpad.
  unfold eff_rowsize_of. nia.
Qed.

(** With at least 8 bits per pixel, the byte addressed for an in-bounds
    pixel and a layer in [0, Bpp) lies in row [j] of the pixel array, hence
    between the payload offset and the payload offset plus the payload
    size. *)
Theorem access_inside_payload raw i j layer width height bpp Bpp start eff po :
  get_size raw = (Ok (width, height), raw) ->
  get_bpp raw = (Ok bpp, raw) ->
  get_Bpp raw = (Ok Bpp, raw) ->
  get_offset raw = (Ok start, raw) ->
  get_eff_rowsize raw = (Ok eff, raw) ->
  8 <= bpp ->
  0 <= layer < Bpp ->
  get_pixel_offset i j raw = (Ok po, raw) ->
  exists payload_size,
    get_payload_size raw = (Ok payload_size, raw)
    /\ start + j * eff <= po + layer < start + (j + 1) * eff
    /\ start <= po + layer < start + payload_size.
Proof.
  rewrite get_size_run, get_bpp_run, get_Bpp_run, get_offset_run,
    get_eff_rowsize_run.
  intros [= <- <-] [= <-] [= <-] [= <-] [= <-] H8 Hl.
  rewrite get_pixel_offset_run.
  destruct (decide (0 <= i < width_of raw)) as [Hi | Hi];
    [| by rewrite (out_of_range_test i)].
  rewrite (in_range_test i) by done.
  destruct (decide (0 <= j < height_of raw)) as [Hj | Hj];
    [| by rewrite (out_of_range_test j)].
  rewrite (in_range_test j) by done. intros [= <-].
  exists (payload_size_of raw). split; [apply get_payload_size_run |].
  pose proof (target_in_row raw i j layer H8 Hi Hj Hl) as Hrow.
  unfold payload_size_of. split; nia.
Qed.

Lemma access_inside_payload_witness :
  exists payload_size,
    get_payload_size image_4x2 = (Ok payload_size, image_4x2)
    /\ 54 + 1 * 12 <= 72 + 2 < 54 + (1 + 1) * 12
    /\ 54 <= 72 + 2 < 54 + payload_size.
Proof.
  apply (access_inside_payload image_4x2 2 1 2 4 2 24 3 54 12 72);
    [reflexivity | reflexivity | reflexivity | reflexivity | reflexivity
    | lia | lia | reflexivity].
Defined.

(** With at least 8 bits per pixel, two accepted accesses that differ in
    the column, the row or the layer address different bytes. *)
Theorem access_injective raw i j layer i' j' layer' bpp Bpp po po' :
  get_bpp raw = (Ok bpp, raw) ->
  get_Bpp raw = (Ok Bpp, raw) ->
  8 <= bpp ->
  0 <= layer < Bpp -> 0 <= layer' < Bpp ->
  get_pixel_offset i j raw = (Ok po, raw) ->
  get_pixel_offset i' j' raw = (Ok po', raw) ->
  po + layer = po' + layer' ->
  i = i' /\ j = j' /\ layer = layer'.
Proof.
  rewrite get_bpp_run, get_Bpp_run. intros [= <-] [= <-] H8 Hl Hl'.
  rewrite !get_pixel_offset_run.
  destruct (decide (0 <= i < width_of raw)) as [Hi | Hi];
    [| by rewrite (out_of_range_test i)].
  rewrite (in_range_test i) by done.
  destruct (decide (0 <= j < height_of raw)) as [Hj | Hj];
    [| by rewrite (out_of_range_test j)].
  rewrite (in_range_test j) by done. intros [= <-].
  destruct (decide (0 <= i' < width_of raw)) as [Hi' | Hi'];
    [| by rewrite (out_of_range_test i')].
  rewrite (in_range_test i') by done.
  destruct (decide (0 <= j' < height_of raw)) as [Hj' | Hj'];
    [| by rewrite (out_of_range_test j')].
  rewrite (in_range_test j') by done. intros [= <-] Heq.
  pose proof (target_in_row raw i j layer H8 Hi Hj Hl) as Hr.
  pose proof (target_in_row raw i' j' layer' H8 Hi' Hj' Hl') as Hr'.
  assert (j = j') as <- by nia.
  assert (i = i') as <- by nia.
  repeat split. lia.
Qed.

Lemma access_injective_witness : 2 = 2 /\ 1 = 1 /\ 2 = 2.
Proof.
  apply (access_injective image_4x2 2 1 2 2 1 2 24 3 72 72);
    [reflexivity | reflexivity | lia | lia | lia | reflexivity | reflexivity
    | reflexivity].
Defined.

(** ** The width check that counts one padding column *)

(** [check_width_w_padding] accepts exactly the columns of
    [0, width + 1) when the payload is not empty and exactly those of
    [0, width) when it is; so it accepts whatever [check_width] accepts,
    and the column [width] itself only on a non-empty payload.  A refusal
    carries the column and the bound, and the buffer is never changed. *)
Theorem check_width_w_padding_spec raw w width height payload_size :
  get_size raw = (Ok (width, height), raw) ->
  get_payload_size raw = (Ok payload_size, raw) ->
  let limit := if 0 <? payload_size then width + 1 else width in
  (0 <= w < limit -> check_width_w_padding w raw = (Ok tt, raw))
  /\ (~ 0 <= w < limit ->
      check_width_w_padding w raw
      = (Raise (ValueNotInExcludeEnd
                  "Width value out of bounds, the padding is included"
                  w 0 limit), raw))
  /\ (check_width w raw = (Ok tt, raw) ->
      check_width_w_padding w raw = (Ok tt, raw))
  /\ (check_width_w_padding width raw = (Ok tt, raw) <-> 0 < payload_size).
Proof.
  rewrite get_size_run, get_payload_size_run. intros [= <- <-] [= <-] limit.
  pose proof (width_of_range raw) as Hw.
  assert (forall x,
             check_width_w_padding x raw =
               if (x <? 0) || (limit <=? x)
               then (Raise (ValueNotInExcludeEnd
                              "Width value out of bounds, the padding is included"
                              x 0 limit), raw)
               else (Ok tt, raw)) as Hrun.
  { intros x. unfold check_width_w_padding, bind.
    rewrite get_size_run, get_payload_size_run. cbn [fst]. subst limit.
    destruct (0 <? payload_size_of raw).
    - by destruct ((x <? 0) || (width_of raw + 1 <=? x)).
    - rewrite Z.add_0_r. by destruct ((x <? 0) || (width_of raw <=? x)). }
  split; [| split; [| split]].
  - intros Hin. by rewrite Hrun, in_range_test.
  - intros Hout. by rewrite Hrun, out_of_range_test.
  - rewrite check_width_run, Hrun.
    destruct (decide (0 <= w < width_of raw)) as [Hin | Hout].
    + intros _. rewrite in_range_test; [done |].
      subst limit. destruct (0 <? payload_size_of raw); lia.
    + by rewrite (out_of_range_test w (width_of raw)).
  - rewrite Hrun. subst limit.
    destruct (Z.ltb_spec 0 (payload_size_of raw)) as [Hpos | Hzero].
    + rewrite in_range_test by lia. done.
    + rewrite out_of_range_test by lia. split; [discriminate | lia].
Qed.

Lemma check_width_w_padding_spec_witness :
  check_width_w_padding 4 image_4x2 = (Ok tt, image_4x2)
  /\ check_width_w_padding 5 image_4x2
     = (Raise (ValueNotInExcludeEnd
                 "Width value out of bounds, the padding is included"
                 5 0 5), image_4x2).
Proof.
  destruct (check_width_w_padding_spec image_4x2 4 4 2 24 eq_refl eq_refl)
    as (Hin & _ & _ & _).
  destruct (check_width_w_padding_spec image_4x2 5 4 2 24 eq_refl eq_refl)
    as (_ & Hout & _ & _).
  split; [apply Hin | apply Hout]; cbn; lia.
Defined.

(** ** Reading and replacing the pixel array *)

Lemma slice_assign_slice a b (s : bytearray) : slice_assign a b (slice a b s) s = s.
Proof.
  unfold slice_assign, slice.
  set (lo := slice_bound (Z.of_nat (length s)) a).
  set (hi := slice_bound (Z.of_nat (length s)) b).
  destruct (Nat.le_gt_cases lo hi) as [Hle | Hgt].
  - rewrite Nat.max_r by done. rewrite app_assoc, take_take_drop.
    replace (lo + (hi - lo))%nat with hi by lia. apply take_drop.
  - rewrite Nat.max_l by lia. replace (hi - lo)%nat with 0%nat by lia.
    rewrite take_0. apply take_drop.
Qed.

Lemma get_payload_run raw :
  get_payload raw
  = (Ok (slice (offset_of raw) (offset_of raw + payload_size_of raw) raw), raw).
Proof. reflexivity. Qed.

(** [get_payload] never raises and never writes.  It returns the bytes of
    the buffer from the payload offset on, as many as the payload size when
    the buffer has them and as many as the buffer has otherwise. *)
Theorem get_payload_spec raw start payload_size :
  get_offset raw = (Ok start, raw) ->
  get_payload_size raw = (Ok payload_size, raw) ->
  exists payload,
    get_payload raw = (Ok payload, raw)
    /\ length payload
       = Nat.min (Z.to_nat payload_size) (length raw - Z.to_nat start)
    /\ (forall k : nat,
           Z.of_nat k < payload_size ->
           payload !! k = raw !! (Z.to_nat start + k)%nat)
    /\ (start + payload_size <= Z.of_nat (length raw) ->
        Z.of_nat (length payload) = payload_size).
Proof.
  rewrite get_offset_run, get_payload_size_run. intros [= <-] [= <-].
  pose proof (offset_of_range raw) as Hstart.
  pose proof (payload_size_of_nonneg raw) as Hsize.
  eexists. split; [apply get_payload_run |].
  rewrite slice_take_drop by lia.
  replace (offset_of raw + payload_size_of raw - offset_of raw)
    with (payload_size_of raw) by lia.
  assert (length (take (Z.to_nat (payload_size_of raw))
                    (drop (Z.to_nat (offset_of raw)) raw))
          = Nat.min (Z.to_nat (payload_size_of raw))
              (length raw - Z.to_nat (offset_of raw))) as Hlen
      by (by rewrite length_take, length_drop).
  split; [exact Hlen |]. split.
  - intros k Hk. rewrite lookup_take_lt by lia. apply lookup_drop.
  - intros Hin. rewrite Hlen. lia.
Qed.

Lemma get_payload_spec_witness :
  exists payload,
    get_payload image_4x2 = (Ok payload, image_4x2)
    /\ length payload = Nat.min (Z.to_nat 24) (length image_4x2 - Z.to_nat 54)
    /\ (forall k : nat,
           Z.of_nat k < 24 -> payload !! k = image_4x2 !! (Z.to_nat 54 + k)%nat)
    /\ (54 + 24 <= Z.of_nat (length image_4x2) ->
        Z.of_nat (length payload) = 24).
Proof.
  apply (get_payload_spec image_4x2 54 24); reflexivity.
Defined.

(** Writing back what [get_payload] returned never changes the buffer: the
    call returns when the returned payload has the payload size, in
    particular when the buffer holds the whole range, and raises
    [ValueError] otherwise. *)
Theorem set_payload_of_get_payload raw start payload_size payload :
  get_offset raw = (Ok start, raw) ->
  get_payload_size raw = (Ok payload_size, raw) ->
  get_payload raw = (Ok payload, raw) ->
  (Z.of_nat (length payload) = payload_size ->
   set_payload payload raw = (Ok tt, raw))
  /\ (Z.of_nat (length payload) <> payload_size ->
      set_payload payload raw = (Raise (ValueError "Error"), raw))
  /\ (start + payload_size <= Z.of_nat (length raw) ->
      set_payload payload raw = (Ok tt, raw)).
Proof.
  rewrite get_offset_run, get_payload_size_run, get_payload_run.
  intros [= <-] [= <-] [= <-].
  pose proof (offset_of_range raw) as Hstart.
  pose proof (payload_size_of_nonneg raw) as Hsize.
  rewrite set_payload_run, slice_assign_slice.
  set (payload := slice (offset_of raw) (offset_of raw + payload_size_of raw) raw).
  assert (offset_of raw + payload_size_of raw <= Z.of_nat (length raw) ->
          Z.of_nat (length payload) = payload_size_of raw) as Hin.
  { intros Hin. subst payload. rewrite slice_take_drop by lia.
    rewrite length_take, length_drop. lia. }
  destruct (Z.eqb_spec (Z.of_nat (length payload)) (payload_size_of raw))
    as [Heq | Hne]; cbn [negb].
  - repeat split; (done || lia).
  - split; [lia |]. split; [done |]. intros Hle. by apply Hin in Hle.
Qed.

Lemma set_payload_of_get_payload_witness :
  set_payload (repeat xa5 24) image_4x2 = (Ok tt, image_4x2).
Proof.
  apply (set_payload_of_get_payload image_4x2 54 24 (repeat xa5 24));
    reflexivity.
Defined.

(** When the pixel array starts after the 30 header bytes and lies inside
    the buffer, [set_payload] keeps the header fields, and [get_payload]
    then returns the payload that was stored. *)
Theorem get_payload_of_set_payload raw payload start payload_size :
  get_offset raw = (Ok start, raw) ->
  get_payload_size raw = (Ok payload_size, raw) ->
  30 <= start ->
  start + payload_size <= Z.of_nat (length raw) ->
  Z.of_nat (length payload) = payload_size ->
  exists raw',
    set_payload payload raw = (Ok tt, raw')
    /\ get_offset raw' = (Ok start, raw')
    /\ get_size raw' = (fst (get_size raw), raw')
    /\ get_bpp raw' = (fst (get_bpp raw), raw')
    /\ get_payload_size raw' = (Ok payload_size, raw')
    /\ get_payload raw' = (Ok payload, raw').
Proof.
  rewrite get_offset_run, get_payload_size_run.
  intros [= <-] [= <-] H30 Hin Hlen.
  pose proof (payload_size_of_nonneg raw) as Hsize.
  rewrite set_payload_run.
  destruct (Z.eqb_spec (Z.of_nat (length payload)) (payload_size_of raw));
    [| done].
  cbn [negb]. eexists. split; [reflexivity |].
  rewrite slice_assign_inside by lia.
  set (s := Z.to_nat (offset_of raw)).
  set (t := Z.to_nat (offset_of raw + payload_size_of raw)).
  set (raw' := take s raw ++ payload ++ drop t raw).
  assert (length (take s raw) = s) as Htake by (rewrite length_take; lia).
  assert (forall k, (k < 30)%nat -> raw' !! k = raw !! k) as Hhead.
  { intros k Hk. subst raw'. rewrite lookup_app_l by lia.
    apply lookup_take_lt. lia. }
  destruct (geometry_agree raw raw' Hhead)
    as (Ho & Hw & Hh & Hb & _ & _ & Hp).
  rewrite get_offset_run, !get_size_run, !get_bpp_run, get_payload_size_run,
    get_payload_run.
  rewrite Ho, Hw, Hh, Hb, Hp. cbn [fst]. do 4 (split; [reflexivity |]).
  do 2 f_equal. rewrite slice_take_drop by lia. fold s.
  replace (Z.to_nat (offset_of raw + payload_size_of raw - offset_of raw))
    with (length payload) by lia.
  subst raw'. rewrite drop_app_length' by done. apply take_app_length.
Qed.

Lemma get_payload_of_set_payload_witness :
  exists raw',
    set_payload (repeat x3c 24) image_4x2 = (Ok tt, raw')
    /\ get_offset raw' = (Ok 54, raw')
    /\ get_size raw' = (fst (get_size image_4x2), raw')
    /\ get_bpp raw' = (fst (get_bpp image_4x2), raw')
    /\ get_payload_size raw' = (Ok 24, raw')
    /\ get_payload raw' = (Ok (repeat x3c 24), raw').
Proof.
  apply (get_payload_of_set_payload image_4x2 (repeat x3c 24) 54 24);
    [reflexivity | reflexivity | lia | cbn; lia | reflexivity].
Defined.

(** ** Failed mutations *)

(** Whatever exception [set_one], [set_zero] or [set_payload] raises, the
    buffer is left exactly as it was before the call. *)
Theorem failed_mutation_keeps_buffer raw raw' e i j layer sublayer payload :
  set_one i j layer sublayer raw = (Raise e, raw')
  \/ set_zero i j layer sublayer raw = (Raise e, raw')
  \/ set_payload payload raw = (Raise e, raw') ->
  raw' = raw.
Proof.
  intros [Hone | [Hzero | Hpay]].
  - rewrite set_one_bit_call in Hone. by apply bit_call_Raise in Hone.
  - rewrite set_zero_bit_call in Hzero. by apply bit_call_Raise in Hzero.
  - rewrite set_payload_run in Hpay.
    destruct (negb (Z.of_nat (length payload) =? payload_size_of raw));
      congruence.
Qed.

Lemma failed_mutation_keeps_buffer_witness :
  snd (set_one 0 0 0 0 (bmp x36 x01 x01 x18 [])) = bmp x36 x01 x01 x18 [].
Proof.
  apply (failed_mutation_keeps_buffer (bmp x36 x01 x01 x18 []) _ IndexError
           0 0 0 0 []).
  left. reflexivity.
Defined.

(** ** When a bit operation returns *)

Lemma py_index_Some_iff len k :
  (exists n, py_index len k = Some n) <-> - Z.of_nat len <= k < Z.of_nat len.
Proof.
  split.
  - intros [n Hn].
    destruct (decide (- Z.of_nat len <= k < Z.of_nat len)) as [Hin | Hout];
      [done |].
    rewrite py_index_out in Hn by lia. discriminate.
  - intros Hk. destruct (Z.lt_ge_cases k 0).
    + eexists. apply py_index_neg. lia.
    + eexists. apply py_index_nonneg. lia.
Qed.

Lemma or_bit_high s v :
  8 <= s -> 0 <= v < 256 -> ~ 0 <= or_bit (Z.shiftl 1 s) v < 256.
Proof.
  intros Hs Hv Hrange.
  pose proof (byte_bits_high _ s Hrange Hs) as Hbit.
  rewrite or_bit_testbit, Z.eqb_refl, orb_true_r in Hbit by lia. discriminate.
Qed.

Lemma clear_bit_high s v :
  8 <= s -> 0 <= v < 256 -> clear_bit (Z.shiftl 1 s) v = v.
Proof.
  intros Hs Hv. apply Z.bits_inj'. intros k Hk.
  rewrite clear_bit_testbit by lia.
  destruct (Z.eqb_spec s k) as [<- | _]; [| apply andb_true_r].
  by rewrite (byte_bits_high v s).
Qed.

Lemma or_bit_set s v :
  0 <= s -> Z.testbit v s = true -> or_bit (Z.shiftl 1 s) v = v.
Proof.
  intros Hs Hbit. apply Z.bits_inj'. intros k Hk.
  rewrite or_bit_testbit by lia.
  destruct (Z.eqb_spec s k) as [<- | _]; [| apply orb_false_r].
  by rewrite Hbit.
Qed.

Lemma clear_bit_clear s v :
  0 <= s -> 0 <= v < 256 -> Z.testbit v s = false ->
  clear_bit (Z.shiftl 1 s) v = v.
Proof.
  intros Hs Hv Hbit. apply Z.bits_inj'. intros k Hk.
  rewrite clear_bit_testbit by lia.
  destruct (Z.eqb_spec s k) as [<- | _]; [| apply andb_true_r].
  by rewrite Hbit.
Qed.

(** [set_one] returns exactly when the four checks accept its arguments,
    the sublayer is in [0, 8), and the offset is an index of the buffer
    (negative ones counting from the end).  [set_zero] returns under the
    same conditions without the bound 8 on the sublayer. *)
Theorem set_bit_returns_iff raw i j layer sublayer
    width height bpp Bpp start eff :
  get_size raw = (Ok (width, height), raw) ->
  get_bpp raw = (Ok bpp, raw) ->
  get_Bpp raw = (Ok Bpp, raw) ->
  get_offset raw = (Ok start, raw) ->
  get_eff_rowsize raw = (Ok eff, raw) ->
  let offset := start + j * eff + i * Bpp + layer in
  let accepted :=
    0 <= sublayer < bpp /\ 0 <= i < width /\ 0 <= j < height /\ layer < Bpp
    /\ - Z.of_nat (length raw) <= offset < Z.of_nat (length raw) in
  (fst (set_one i j layer sublayer raw) = Ok tt <-> accepted /\ sublayer < 8)
  /\ (fst (set_zero i j layer sublayer raw) = Ok tt <-> accepted).
Proof.
  rewrite get_size_run, get_bpp_run, get_Bpp_run, get_offset_run,
    get_eff_rowsize_run.
  intros [= <- <-] [= <-] [= <-] [= <-] [= <-] offset accepted.
  rewrite set_one_bit_call, set_zero_bit_call.
  assert (forall op,
             fst (bit_call op i j layer sublayer raw) = Ok tt ->
             accepted /\
             exists b b', byte_to_Z b' = op (Z.shiftl 1 sublayer) (byte_to_Z b))
    as Hok.
  { intros op Hfst.
    destruct (bit_call op i j layer sublayer raw) as [out raw'] eqn:Hrun.
    cbn [fst] in Hfst. subst out.
    apply bit_call_Ok in Hrun
      as (Hs & Hi & Hj & Hl & n & b & b' & Hn & _ & Hb' & _).
    split; [| by exists b, b'].
    repeat split; try lia; apply (py_index_Some_iff (length raw)); by exists n. }
  assert (forall op,
             accepted ->
             (forall v, 0 <= v < 256 -> 0 <= op (Z.shiftl 1 sublayer) v < 256) ->
             fst (bit_call op i j layer sublayer raw) = Ok tt) as Hret.
  { intros op (Hs & Hi & Hj & Hl & Hoff) Hrange.
    apply py_index_Some_iff in Hoff as [n Hn].
    destruct (lookup_is_Some_of_index raw _ _ Hn) as [b Hb].
    destruct (byte_of_Z_in_range _ (Hrange _ (byte_to_Z_range b))) as [b' Hb'].
    by rewrite (bit_call_at op i j layer sublayer n b b'). }
  split; split.
  - intros (Hacc & b & b' & Hb')%Hok. split; [done |].
    destruct (Z.lt_ge_cases sublayer 8) as [? | Hhigh]; [done | exfalso].
    apply (or_bit_high sublayer (byte_to_Z b) Hhigh (byte_to_Z_range b)).
    rewrite <- Hb'. apply byte_to_Z_range.
  - intros [Hacc Hs8]. apply Hret; [done |].
    intros v Hv. apply or_bit_range; [| done].
    destruct Hacc as [Hs _]. lia.
  - by intros [Hacc _]%Hok.
  - intros Hacc. apply Hret; [done |].
    intros v Hv. apply clear_bit_range; [| done].
    destruct Hacc as [Hs _]. lia.
Qed.

Lemma set_bit_returns_iff_witness :
  fst (set_one 2 1 1 9 image_4x2) <> Ok tt
  /\ fst (set_zero 2 1 1 9 image_4x2) = Ok tt.
Proof.
  destruct (set_bit_returns_iff image_4x2 2 1 1 9 4 2 24 3 54 12
              eq_refl eq_refl eq_refl eq_refl eq_refl) as [Hone Hzero].
  split.
  - intros Hret. apply Hone in Hret. lia.
  - apply Hzero. cbn. lia.
Defined.

(** ** Operations that change nothing *)

Section NoChange.
Variable op : Z -> Z -> Z.

(** A call whose operator maps the addressed byte to itself leaves the
    buffer as it was, whether the call returns or raises. *)
Lemma bit_call_fixed i j layer sublayer raw :
  (forall n b,
      py_index (length raw)
        (offset_of raw + j * eff_rowsize_of raw + i * Bpp_of raw + layer)
      = Some n ->
      raw !! n = Some b -> 0 <= sublayer ->
      op (Z.shiftl 1 sublayer) (byte_to_Z b) = byte_to_Z b) ->
  snd (bit_call op i j layer sublayer raw) = raw.
Proof.
  intros Hfix.
  destruct (bit_call op i j layer sublayer raw) as [[[] | e] raw'] eqn:Hrun;
    cbn [snd].
  - apply bit_call_Ok in Hrun
      as (Hs & _ & _ & _ & n & b & b' & Hn & Hb & Hb' & ->).
    rewrite (Hfix n b Hn Hb) in Hb' by lia.
    apply byte_to_Z_inj in Hb' as ->. by apply list_insert_id.
  - by apply bit_call_Raise in Hrun.
Qed.
End NoChange.

(** [set_one] on a bit that is already 1, and [set_zero] on a bit that is
    already 0, leave the whole buffer as it was. *)
Theorem set_bit_already_there raw i j layer sublayer po v :
  get_pixel_offset i j raw = (Ok po, raw) ->
  getitem (po + layer) raw = (Ok v, raw) ->
  0 <= sublayer ->
  (Z.testbit v sublayer = true -> snd (set_one i j layer sublayer raw) = raw)
  /\ (Z.testbit v sublayer = false -> snd (set_zero i j layer sublayer raw) = raw).
Proof.
  rewrite get_pixel_offset_run.
  destruct ((i <? 0) || (width_of raw <=? i)); [discriminate |].
  destruct ((j <? 0) || (height_of raw <=? j)); [discriminate |].
  intros [= <-] (_ & n & b & Hn & Hb & ->)%getitem_Ok Hs.
  rewrite set_one_bit_call, set_zero_bit_call.
  split; intros Hbit; apply bit_call_fixed; intros n' b' Hn' Hb' _.
  - assert (n' = n) as -> by congruence. assert (b' = b) as -> by congruence.
    by apply or_bit_set.
  - assert (n' = n) as -> by congruence. assert (b' = b) as -> by congruence.
    apply clear_bit_clear; [done | apply byte_to_Z_range | done].
Qed.

Lemma set_bit_already_there_witness :
  snd (set_one 2 1 1 7 image_4x2) = image_4x2
  /\ snd (set_zero 2 1 1 1 image_4x2) = image_4x2.
Proof.
  split.
  - apply (set_bit_already_there image_4x2 2 1 1 7 72 165);
      [reflexivity | reflexivity | lia | reflexivity].
  - apply (set_bit_already_there image_4x2 2 1 1 1 72 165);
      [reflexivity | reflexivity | lia | reflexivity].
Defined.

(** A sublayer of 8 or more, which [check_sublayer] accepts on images of
    more than 8 bits per pixel, never changes the buffer: [set_zero] returns
    without effect, and [set_one] raises [ValueError] whenever its
    arguments are otherwise accepted and the offset is in the buffer. *)
Theorem high_sublayer_changes_nothing raw i j layer sublayer :
  8 <= sublayer ->
  snd (set_zero i j layer sublayer raw) = raw
  /\ snd (set_one i j layer sublayer raw) = raw
  /\ forall po v,
      check_sublayer sublayer raw = (Ok tt, raw) ->
      check_layer layer raw = (Ok tt, raw) ->
      get_pixel_offset i j raw = (Ok po, raw) ->
      getitem (po + layer) raw = (Ok v, raw) ->
      set_one i j layer sublayer raw
      = (Raise (ValueError "byte must be in range(0, 256)"), raw).
Proof.
  intros Hs. rewrite set_one_bit_call, set_zero_bit_call.
  split; [| split].
  - apply bit_call_fixed. intros n b _ _ _.
    apply clear_bit_high; [done | apply byte_to_Z_range].
  - destruct (bit_call or_bit i j layer sublayer raw) as [[[] | e] raw'] eqn:Hrun;
      cbn [snd].
    + apply bit_call_Ok in Hrun as (_ & _ & _ & _ & n & b & b' & _ & _ & Hb' & _).
      exfalso. apply (or_bit_high sublayer (byte_to_Z b) Hs (byte_to_Z_range b)).
      rewrite <- Hb'. apply byte_to_Z_range.
    + by apply bit_call_Raise in Hrun.
  - intros po v. rewrite check_sublayer_run, check_layer_run, get_pixel_offset_run.
    destruct (bpp_of raw <=? sublayer) eqn:Hsub; [discriminate |]. intros _.
    destruct (Bpp_of raw <=? layer) eqn:Hlayer; [discriminate |]. intros _.
    destruct ((i <? 0) || (width_of raw <=? i)) eqn:Hi; [discriminate |].
    destruct ((j <? 0) || (height_of raw <=? j)) eqn:Hj; [discriminate |].
    intros [= <-] (_ & n & b & Hn & Hb & ->)%getitem_Ok.
    rewrite bit_call_run, Hsub, apply_bitmask_run, Hi, Hj, Hlayer.
    rewrite bit_bitmask_run.
    destruct (Z.ltb_spec sublayer 0); [lia |].
    rewrite inplace_run, Hn, Hb.
    by rewrite byte_of_Z_out_of_range
      by (apply or_bit_high; [done | apply byte_to_Z_range]).
Qed.

Lemma high_sublayer_changes_nothing_witness :
  snd (set_zero 2 1 1 9 image_4x2) = image_4x2
  /\ snd (set_one 2 1 1 9 image_4x2) = image_4x2
  /\ set_one 2 1 1 9 image_4x2
     = (Raise (ValueError "byte must be in range(0, 256)"), image_4x2).
Proof.
  destruct (high_sublayer_changes_nothing image_4x2 2 1 1 9 ltac:(lia))
    as (Hzero & Hone & Hraise).
  split; [exact Hzero |]. split; [exact Hone |].
  apply (Hraise 72 165); reflexivity.
Defined.

(** ** Sequences of bit operations *)

Lemma or_bit_range_any s v v' :
  0 <= s -> 0 <= v < 256 -> 0 <= v' < 256 ->
  0 <= or_bit (Z.shiftl 1 s) v < 256 -> 0 <= or_bit (Z.shiftl 1 s) v' < 256.
Proof.
  intros Hs Hv Hv' Hrange.
  destruct (Z.lt_ge_cases s 8) as [Hlow | Hhigh].
  - apply or_bit_range; [lia | done].
  - by destruct (or_bit_high s v Hhigh Hv).
Qed.

Lemma clear_bit_range_any s v v' :
  0 <= s -> 0 <= v < 256 -> 0 <= v' < 256 ->
  0 <= clear_bit (Z.shiftl 1 s) v < 256 -> 0 <= clear_bit (Z.shiftl 1 s) v' < 256.
Proof. intros Hs _ Hv' _. by apply clear_bit_range. Qed.

Lemma clear_after_or s v :
  0 <= s < 8 -> 0 <= v < 256 ->
  clear_bit (Z.shiftl 1 s) (or_bit (Z.shiftl 1 s) v) = clear_bit (Z.shiftl 1 s) v.
Proof.
  intros Hs Hv. apply Z.bits_inj'. intros k Hk.
  rewrite !clear_bit_testbit by (try apply or_bit_range; (done || lia)).
  rewrite or_bit_testbit by lia.
  destruct (Z.eqb_spec s k); cbn; [by rewrite !andb_false_r | by rewrite orb_false_r].
Qed.

Lemma or_after_clear s v :
  0 <= s -> 0 <= v < 256 ->
  or_bit (Z.shiftl 1 s) (clear_bit (Z.shiftl 1 s) v) = or_bit (Z.shiftl 1 s) v.
Proof.
  intros Hs Hv. apply Z.bits_inj'. intros k Hk.
  rewrite !or_bit_testbit, clear_bit_testbit by (done || lia).
  destruct (Z.eqb_spec s k); cbn; [by rewrite !orb_true_r | by rewrite andb_true_r].
Qed.

Lemma or_or_commute a b v : or_bit b (or_bit a v) = or_bit a (or_bit b v).
Proof.
  unfold or_bit. by rewrite <- !Z.lor_assoc, (Z.lor_comm a b).
Qed.

Lemma clear_clear_commute a b v :
  clear_bit b (clear_bit a v) = clear_bit a (clear_bit b v).
Proof.
  unfold clear_bit.
  by rewrite <- !Z.land_assoc, (Z.land_comm (Z.lxor 255 a) (Z.lxor 255 b)).
Qed.

Lemma clear_or_commute sa sb v :
  0 <= sa < 8 -> 0 <= sb -> sa <> sb -> 0 <= v < 256 ->
  clear_bit (Z.shiftl 1 sb) (or_bit (Z.shiftl 1 sa) v)
  = or_bit (Z.shiftl 1 sa) (clear_bit (Z.shiftl 1 sb) v).
Proof.
  intros Hsa Hsb Hne Hv. apply Z.bits_inj'. intros k Hk.
  rewrite clear_bit_testbit by (try apply or_bit_range; (done || lia)).
  rewrite !or_bit_testbit, clear_bit_testbit by (done || lia).
  destruct (Z.eqb_spec sa k), (Z.eqb_spec sb k); cbn;
    rewrite ?orb_true_r, ?orb_false_r, ?andb_true_r, ?andb_false_r;
    (done || lia).
Qed.

(** A write outside the header keeps the geometry and the length. *)
Lemma insert_geometry (raw : bytearray) n b :
  (30 <= n)%nat ->
  length (<[n:=b]> raw) = length raw
  /\ offset_of (<[n:=b]> raw) = offset_of raw
  /\ width_of (<[n:=b]> raw) = width_of raw
  /\ height_of (<[n:=b]> raw) = height_of raw
  /\ bpp_of (<[n:=b]> raw) = bpp_of raw
  /\ Bpp_of (<[n:=b]> raw) = Bpp_of raw
  /\ eff_rowsize_of (<[n:=b]> raw) = eff_rowsize_of raw.
Proof.
  intros Hn. split; [apply length_insert |].
  destruct (geometry_agree raw (<[n:=b]> raw)) as (? & ? & ? & ? & ? & ? & _);
    [intros k Hk; by apply insert_keeps_header | done].
Qed.

Section TwoCalls.
Variables opX opY : Z -> Z -> Z.
Hypothesis rangeX :
  forall s v v', 0 <= s -> 0 <= v < 256 -> 0 <= v' < 256 ->
    0 <= opX (Z.shiftl 1 s) v < 256 -> 0 <= opX (Z.shiftl 1 s) v' < 256.
Hypothesis rangeY :
  forall s v v', 0 <= s -> 0 <= v < 256 -> 0 <= v' < 256 ->
    0 <= opY (Z.shiftl 1 s) v < 256 -> 0 <= opY (Z.shiftl 1 s) v' < 256.

(** The second of two calls, run after a first one that wrote outside the
    header, returns as it would have on the initial buffer and rewrites the
    byte it finds there. *)
Lemma bit_call_after_write i j layer s raw raw1 n m (b' : byte) :
  bit_call opY i j layer s raw = (Ok tt, raw1) ->
  py_index (length raw)
    (offset_of raw + j * eff_rowsize_of raw + i * Bpp_of raw + layer) = Some n ->
  (30 <= m)%nat ->
  exists c c',
    <[m:=b']> raw !! n = Some c
    /\ byte_to_Z c' = opY (Z.shiftl 1 s) (byte_to_Z c)
    /\ bit_call opY i j layer s (<[m:=b']> raw)
       = (Ok tt, <[n:=c']> (<[m:=b']> raw)).
Proof.
  intros (Hs & Hi & Hj & Hl & n0 & b & b0 & Hn0 & Hb & Hb0 & _)%bit_call_Ok
    Hn Hm.
  assert (n0 = n) as -> by congruence.
  destruct (insert_geometry raw m b' Hm) as (Hlen & Ho & Hw & Hh & Hb1 & HB & He).
  assert (n < length (<[m:=b']> raw))%nat as Hlt
      by (rewrite Hlen; by apply py_index_lt with
            (offset_of raw + j * eff_rowsize_of raw + i * Bpp_of raw + layer)).
  destruct (lookup_lt_is_Some_2 _ _ Hlt) as [c Hc].
  assert (0 <= opY (Z.shiftl 1 s) (byte_to_Z c) < 256) as Hrange.
  { apply (rangeY s (byte_to_Z b)); try apply byte_to_Z_range; [lia |].
    rewrite <- Hb0. apply byte_to_Z_range. }
  destruct (byte_of_Z_in_range _ Hrange) as [c' Hc'].
  exists c, c'. split; [done |]. split; [by apply byte_to_of_Z |].
  apply bit_call_at with c; rewrite ?Hlen, ?Ho, ?Hw, ?Hh, ?Hb1, ?HB, ?He; done.
Qed.
End TwoCalls.

Section Commute.
Variables opX opY : Z -> Z -> Z.
Hypothesis rangeX :
  forall s v v', 0 <= s -> 0 <= v < 256 -> 0 <= v' < 256 ->
    0 <= opX (Z.shiftl 1 s) v < 256 -> 0 <= opX (Z.shiftl 1 s) v' < 256.
Hypothesis rangeY :
  forall s v v', 0 <= s -> 0 <= v < 256 -> 0 <= v' < 256 ->
    0 <= opY (Z.shiftl 1 s) v < 256 -> 0 <= opY (Z.shiftl 1 s) v' < 256.

Lemma bit_calls_commute raw ia ja la sa ib jb lb sb na nb rawA rawB :
  py_index (length raw)
    (offset_of raw + ja * eff_rowsize_of raw + ia * Bpp_of raw + la) = Some na ->
  py_index (length raw)
    (offset_of raw + jb * eff_rowsize_of raw + ib * Bpp_of raw + lb) = Some nb ->
  (30 <= na)%nat -> (30 <= nb)%nat ->
  (na = nb -> forall v, 0 <= v < 256 ->
     opY (Z.shiftl 1 sb) (opX (Z.shiftl 1 sa) v)
     = opX (Z.shiftl 1 sa) (opY (Z.shiftl 1 sb) v)) ->
  bit_call opX ia ja la sa raw = (Ok tt, rawA) ->
  bit_call opY ib jb lb sb raw = (Ok tt, rawB) ->
  exists raw2,
    bit_call opY ib jb lb sb rawA = (Ok tt, raw2)
    /\ bit_call opX ia ja la sa rawB = (Ok tt, raw2).
Proof.
  intros Hna Hnb H30a H30b Hcomm HA HB.
  pose proof HA as (_ & _ & _ & _ & na0 & a & a' & Hna0 & Ha & Ha' & ->)%bit_call_Ok.
  pose proof HB as (_ & _ & _ & _ & nb0 & b & b' & Hnb0 & Hb & Hb' & ->)%bit_call_Ok.
  assert (na0 = na) as -> by congruence.
  assert (nb0 = nb) as -> by congruence.
  destruct (bit_call_after_write opY rangeY ib jb lb sb raw _ nb na a' HB Hnb H30a)
    as (c & c' & Hc & Hc' & HrunB).
  destruct (bit_call_after_write opX rangeX ia ja la sa raw _ na nb b' HA Hna H30b)
    as (d & d' & Hd & Hd' & HrunA).
  rewrite HrunB, HrunA. eexists. split; [reflexivity |]. f_equal.
  pose proof (py_index_lt _ _ _ Hna) as Hlta.
  pose proof (py_index_lt _ _ _ Hnb) as Hltb.
  destruct (decide (na = nb)) as [-> | Hne].
  - rewrite list_lookup_insert_eq in Hc, Hd by done.
    injection Hc as <-. injection Hd as <-.
    assert (a = b) as -> by congruence.
    rewrite !list_insert_insert_eq. f_equal. apply byte_to_Z_inj.
    rewrite Hc', Hd', Ha', Hb'. symmetry. apply Hcomm; [done |].
    apply byte_to_Z_range.
  - rewrite list_lookup_insert_ne in Hc, Hd by done.
    assert (c = b) as -> by congruence. assert (d = a) as -> by congruence.
    assert (c' = b') as -> by (apply byte_to_Z_inj; congruence).
    assert (d' = a') as -> by (apply byte_to_Z_inj; congruence).
    by apply list_insert_insert_ne.
Qed.
End Commute.

Lemma or_bit_call_returns_low i j layer s raw raw' :
  bit_call or_bit i j layer s raw = (Ok tt, raw') -> 0 <= s < 8.
Proof.
  intros (Hs & _ & _ & _ & n & b & b' & _ & _ & Hb' & _)%bit_call_Ok.
  split; [lia |].
  destruct (Z.lt_ge_cases s 8) as [? | Hhigh]; [done | exfalso].
  apply (or_bit_high s (byte_to_Z b) Hhigh (byte_to_Z_range b)).
  rewrite <- Hb'. apply byte_to_Z_range.
Qed.

(** Two bit operations that both return on a buffer, each addressing a
    byte outside the 30 header bytes, can be run in either order with the
    same final buffer: always for two [set_one] or two [set_zero], and for
    a [set_one] and a [set_zero] unless they address the same bit of the
    same byte. *)
Theorem bit_writes_commute raw ia ja la sa ib jb lb sb poa pob na nb :
  get_pixel_offset ia ja raw = (Ok poa, raw) ->
  get_pixel_offset ib jb raw = (Ok pob, raw) ->
  py_index (length raw) (poa + la) = Some na ->
  py_index (length raw) (pob + lb) = Some nb ->
  (30 <= na)%nat -> (30 <= nb)%nat ->
  (forall rawA rawB,
      set_one ia ja la sa raw = (Ok tt, rawA) ->
      set_one ib jb lb sb raw = (Ok tt, rawB) ->
      exists raw2,
        set_one ib jb lb sb rawA = (Ok tt, raw2)
        /\ set_one ia ja la sa rawB = (Ok tt, raw2))
  /\ (forall rawA rawB,
      set_zero ia ja la sa raw = (Ok tt, rawA) ->
      set_zero ib jb lb sb raw = (Ok tt, rawB) ->
      exists raw2,
        set_zero ib jb lb sb rawA = (Ok tt, raw2)
        /\ set_zero ia ja la sa rawB = (Ok tt, raw2))
  /\ (forall rawA rawB,
      na <> nb \/ sa <> sb ->
      set_one ia ja la sa raw = (Ok tt, rawA) ->
      set_zero ib jb lb sb raw = (Ok tt, rawB) ->
      exists raw2,
        set_zero ib jb lb sb rawA = (Ok tt, raw2)
        /\ set_one ia ja la sa rawB = (Ok tt, raw2)).
Proof.
  rewrite !get_pixel_offset_run.
  destruct ((ia <? 0) || (width_of raw <=? ia)); [discriminate |].
  destruct ((ja <? 0) || (height_of raw <=? ja)); [discriminate |].
  intros [= <-].
  destruct ((ib <? 0) || (width_of raw <=? ib)); [discriminate |].
  destruct ((jb <? 0) || (height_of raw <=? jb)); [discriminate |].
  intros [= <-] Hna Hnb H30a H30b.
  rewrite set_one_bit_call, set_zero_bit_call.
  split; [| split].
  - intros rawA rawB HA HB.
    apply (bit_calls_commute or_bit or_bit or_bit_range_any or_bit_range_any
             raw ia ja la sa ib jb lb sb na nb); try done.
    intros _ v _. apply or_or_commute.
  - intros rawA rawB HA HB.
    apply (bit_calls_commute clear_bit clear_bit clear_bit_range_any
             clear_bit_range_any raw ia ja la sa ib jb lb sb na nb); try done.
    intros _ v _. apply clear_clear_commute.
  - intros rawA rawB Hdiff HA HB.
    apply (bit_calls_commute or_bit clear_bit or_bit_range_any
             clear_bit_range_any raw ia ja la sa ib jb lb sb na nb); try done.
    intros Hsame v Hv.
    pose proof (or_bit_call_returns_low _ _ _ _ _ _ HA) as Hsa.
    pose proof HB as (Hsb & _)%bit_call_Ok.
    apply clear_or_commute; [done | lia | | done].
    destruct Hdiff; [done | done].
Qed.

Lemma bit_writes_commute_witness :
  exists raw2,
    set_zero 2 1 1 7 (<[73%nat:=xa7]> image_4x2) = (Ok tt, raw2)
    /\ set_one 2 1 1 1 (<[73%nat:=x25]> image_4x2) = (Ok tt, raw2).
Proof.
  destruct (bit_writes_commute image_4x2 2 1 1 1 2 1 1 7 72 72 73 73)
    as (_ & _ & Hmixed);
    [reflexivity | reflexivity | reflexivity | reflexivity | lia | lia |].
  apply Hmixed; [right; lia | reflexivity | reflexivity].
Defined.

(** On a byte outside the 30 header bytes the last of a [set_one] and a
    [set_zero] with the same arguments decides: the final buffer is the one
    the last call alone would have left. *)
Theorem last_bit_write_wins raw i j layer sublayer po n :
  get_pixel_offset i j raw = (Ok po, raw) ->
  py_index (length raw) (po + layer) = Some n ->
  (30 <= n)%nat ->
  snd (set_zero i j layer sublayer (snd (set_one i j layer sublayer raw)))
  = snd (set_zero i j layer sublayer raw)
  /\ snd (set_one i j layer sublayer (snd (set_zero i j layer sublayer raw)))
     = snd (set_one i j layer sublayer raw).
Proof.
  rewrite get_pixel_offset_run.
  destruct ((i <? 0) || (width_of raw <=? i)); [discriminate |].
  destruct ((j <? 0) || (height_of raw <=? j)); [discriminate |].
  intros [= <-] Hn H30.
  rewrite set_one_bit_call, set_zero_bit_call.
  assert (forall opX opY,
             (forall s v v', 0 <= s -> 0 <= v < 256 -> 0 <= v' < 256 ->
                0 <= opY (Z.shiftl 1 s) v < 256 ->
                0 <= opY (Z.shiftl 1 s) v' < 256) ->
             (forall raw1, bit_call opX i j layer sublayer raw = (Ok tt, raw1) ->
                forall v, 0 <= v < 256 ->
                  opY (Z.shiftl 1 sublayer) (opX (Z.shiftl 1 sublayer) v)
                  = opY (Z.shiftl 1 sublayer) v) ->
             (forall raw1, bit_call opX i j layer sublayer raw = (Ok tt, raw1) ->
                fst (bit_call opY i j layer sublayer raw) <> Ok tt ->
                raw1 = raw) ->
             snd (bit_call opY i j layer sublayer
                    (snd (bit_call opX i j layer sublayer raw)))
             = snd (bit_call opY i j layer sublayer raw)) as Hgen.
  { intros opX opY rangeY Habsorb Hfails.
    destruct (bit_call opX i j layer sublayer raw) as [[[] | e] raw1] eqn:HX;
      cbn [snd].
    2: { by pose proof (bit_call_Raise _ _ _ _ _ _ _ _ HX) as ->. }
    destruct (bit_call opY i j layer sublayer raw) as [[[] | e] raw0] eqn:HY;
      cbn [snd].
    2: { pose proof (bit_call_Raise _ _ _ _ _ _ _ _ HY) as ->.
         rewrite (Hfails raw1 eq_refl) by (cbn; discriminate).
         by rewrite HY. }
    pose proof HX as (_ & _ & _ & _ & n1 & b & b1 & Hn1 & Hb & Hb1 & ->)%bit_call_Ok.
    pose proof HY as (_ & _ & _ & _ & n0 & b0 & c0 & Hn0 & Hb0 & Hc0 & ->)%bit_call_Ok.
    assert (n1 = n) as -> by congruence. assert (n0 = n) as -> by congruence.
    assert (b0 = b) as -> by congruence.
    destruct (bit_call_after_write opY rangeY i j layer sublayer raw _ n n b1
                HY Hn H30) as (c & c' & Hc & Hc' & Hrun).
    rewrite Hrun. cbn [snd]. rewrite list_insert_insert_eq. f_equal.
    rewrite list_lookup_insert_eq in Hc by (by apply py_index_lt in Hn).
    injection Hc as <-. apply byte_to_Z_inj.
    rewrite Hc', Hc0, Hb1. apply (Habsorb _ eq_refl), byte_to_Z_range. }
  split.
  - apply Hgen; [apply clear_bit_range_any | |].
    + intros raw1 Hs%or_bit_call_returns_low v Hv. by apply clear_after_or.
    + intros raw1 Hone Hzero. exfalso. apply Hzero.
      pose proof Hone as (Hs & Hi & Hj & Hl & n1 & b & b1 & Hn1 & Hb & _)%bit_call_Ok.
      destruct (byte_of_Z_in_range _
                  (clear_bit_range sublayer _ (proj1 Hs) (byte_to_Z_range b)))
        as [b0 Hb0].
      by rewrite (bit_call_at clear_bit i j layer sublayer n1 b b0).
  - apply Hgen; [apply or_bit_range_any | |].
    + intros raw1 (Hs & _)%bit_call_Ok v Hv. apply or_after_clear; [lia | done].
    + intros raw1 Hzero Hone.
      pose proof Hzero
        as (Hs & Hi & Hj & Hl & n1 & b & b0 & Hn1 & Hb & Hb0 & ->)%bit_call_Ok.
      destruct (Z.lt_ge_cases sublayer 8) as [Hlow | Hhigh].
      * exfalso. apply Hone.
        destruct (byte_of_Z_in_range _
                    (or_bit_range sublayer _ (conj (proj1 Hs) Hlow)
                       (byte_to_Z_range b))) as [b1 Hb1].
        by rewrite (bit_call_at or_bit i j layer sublayer n1 b b1).
      * rewrite clear_bit_high in Hb0 by (done || apply byte_to_Z_range).
        apply byte_to_Z_inj in Hb0 as ->. by apply list_insert_id.
Qed.

Lemma last_bit_write_wins_witness :
  snd (set_zero 2 1 1 1 (snd (set_one 2 1 1 1 image_4x2)))
  = snd (set_zero 2 1 1 1 image_4x2)
  /\ snd (set_one 2 1 1 1 (snd (set_zero 2 1 1 1 image_4x2)))
     = snd (set_one 2 1 1 1 image_4x2).
Proof.
  apply (last_bit_write_wins image_4x2 2 1 1 1 72 73);
    [reflexivity | reflexivity | lia].
Defined.

(** ** A bit operation seen through the pixel array *)

(** On an image of at least 8 bits per pixel whose pixel array starts
    after the header, a [set_one] or [set_zero] with a layer in [0, Bpp)
    that returns keeps the header, and the pixel array read afterwards is
    the one read before with the byte at
    [get_pixel_offset(i, j) + layer - payload_offset] rewritten. *)
Theorem bit_write_in_payload raw raw' i j layer sublayer bpp Bpp start po payload :
  get_bpp raw = (Ok bpp, raw) ->
  get_Bpp raw = (Ok Bpp, raw) ->
  get_offset raw = (Ok start, raw) ->
  8 <= bpp -> 30 <= start -> 0 <= layer < Bpp ->
  get_pixel_offset i j raw = (Ok po, raw) ->
  get_payload raw = (Ok payload, raw) ->
  set_one i j layer sublayer raw = (Ok tt, raw')
  \/ set_zero i j layer sublayer raw = (Ok tt, raw') ->
  exists b,
    raw' = <[Z.to_nat (po + layer):=b]> raw
    /\ get_offset raw' = (Ok start, raw')
    /\ get_size raw' = (fst (get_size raw), raw')
    /\ get_bpp raw' = (Ok bpp, raw')
    /\ (Z.to_nat (po + layer - start) < length payload)%nat
    /\ get_payload raw'
       = (Ok (<[Z.to_nat (po + layer - start):=b]> payload), raw').
Proof.
  rewrite get_bpp_run, get_Bpp_run, get_offset_run.
  intros [= <-] [= <-] [= <-] H8 H30 Hl.
  rewrite get_pixel_offset_run.
  destruct (decide (0 <= i < width_of raw)) as [Hi | Hi];
    [| by rewrite (out_of_range_test i)].
  rewrite (in_range_test i) by done.
  destruct (decide (0 <= j < height_of raw)) as [Hj | Hj];
    [| by rewrite (out_of_range_test j)].
  rewrite (in_range_test j) by done. intros [= <-].
  rewrite get_payload_run. intros [= <-] Hrun.
  pose proof (target_in_row raw i j layer H8 Hi Hj Hl) as Hrow.
  pose proof (eff_rowsize_of_nonneg raw) as Heff.
  pose proof (payload_size_of_nonneg raw) as Hsize.
  set (target := offset_of raw + j * eff_rowsize_of raw + i * Bpp_of raw + layer)
    in *.
  assert (offset_of raw <= target < offset_of raw + payload_size_of raw) as Hin
      by (unfold payload_size_of; subst target; nia).
  assert (exists op, bit_call op i j layer sublayer raw = (Ok tt, raw'))
    as [op Hcall].
  { destruct Hrun as [Hone | Hzero]; [by exists or_bit | by exists clear_bit]. }
  apply bit_call_Ok in Hcall
    as (_ & _ & _ & _ & n & b & b' & Hn & Hb & _ & ->).
  fold target in Hn.
  pose proof (py_index_lt _ _ _ Hn) as Hlt.
  assert (- Z.of_nat (length raw) <= target < Z.of_nat (length raw)) as Hidx
      by (apply py_index_Some_iff; by exists n).
  rewrite py_index_nonneg in Hn by lia. injection Hn as <-.
  destruct (insert_geometry raw (Z.to_nat target) b' ltac:(lia))
    as (Hlen & Ho & Hw & Hh & Hb1 & HB & He).
  assert (payload_size_of (<[Z.to_nat target:=b']> raw) = payload_size_of raw)
    as Hp by (unfold payload_size_of; by rewrite Hh, He).
  exists b'. split; [done |].
  rewrite get_offset_run, !get_size_run, get_bpp_run, get_payload_run.
  rewrite Ho, Hw, Hh, Hb1, Hp. cbn [fst]. do 3 (split; [reflexivity |]).
  rewrite !slice_take_drop by lia.
  replace (offset_of raw + payload_size_of raw - offset_of raw)
    with (payload_size_of raw) by lia.
  split.
  - rewrite length_take, length_drop. lia.
  - do 2 f_equal. rewrite drop_insert_ge by lia.
    rewrite take_insert_lt by lia. do 2 f_equal. lia.
Qed.

Lemma bit_write_in_payload_witness :
  exists b,
    <[73%nat:=xa7]> image_4x2 = <[Z.to_nat (72 + 1):=b]> image_4x2
    /\ get_offset (<[73%nat:=xa7]> image_4x2) = (Ok 54, <[73%nat:=xa7]> image_4x2)
    /\ get_size (<[73%nat:=xa7]> image_4x2)
       = (fst (get_size image_4x2), <[73%nat:=xa7]> image_4x2)
    /\ get_bpp (<[73%nat:=xa7]> image_4x2) = (Ok 24, <[73%nat:=xa7]> image_4x2)
    /\ (Z.to_nat (72 + 1 - 54) < length (repeat xa5 24))%nat
    /\ get_payload (<[73%nat:=xa7]> image_4x2)
       = (Ok (<[Z.to_nat (72 + 1 - 54):=b]> (repeat xa5 24)),
          <[73%nat:=xa7]> image_4x2).
Proof.
  apply (bit_write_in_payload image_4x2 (<[73%nat:=xa7]> image_4x2)
           2 1 1 1 24 3 54 72 (repeat xa5 24));
    [reflexivity | reflexivity | reflexivity | lia | lia | lia | reflexivity
    | reflexivity | left; reflexivity].
Defined.

(** ** What [apply_bitmask] hands to its callback *)

(** When the three checks accept (i, j, layer), [get_pixel_offset] returns
    too, and [apply_bitmask] is the callback run once at
    [get_pixel_offset(i, j) + layer] on the unchanged buffer: same outcome,
    same final buffer, whatever the callback. *)
Theorem apply_bitmask_delegates raw i j layer :
  check_width i raw = (Ok tt, raw) ->
  check_height j raw = (Ok tt, raw) ->
  check_layer layer raw = (Ok tt, raw) ->
  exists po,
    get_pixel_offset i j raw = (Ok po, raw)
    /\ forall bitmask : Z -> M unit,
        apply_bitmask i j layer bitmask raw = bitmask (po + layer) raw.
Proof.
  rewrite check_width_run, check_height_run, check_layer_run.
  destruct ((i <? 0) || (width_of raw <=? i)) eqn:Hi; [discriminate |].
  intros _.
  destruct ((j <? 0) || (height_of raw <=? j)) eqn:Hj; [discriminate |].
  intros _.
  destruct (Bpp_of raw <=? layer) eqn:Hl; [discriminate |]. intros _.
  exists (offset_of raw + j * eff_rowsize_of raw + i * Bpp_of raw).
  rewrite get_pixel_offset_run, Hi, Hj. split; [reflexivity |].
  intros bitmask. by rewrite apply_bitmask_run, Hi, Hj, Hl.
Qed.

Lemma apply_bitmask_delegates_witness :
  exists po,
    get_pixel_offset 2 1 image_4x2 = (Ok po, image_4x2)
    /\ forall bitmask : Z -> M unit,
        apply_bitmask 2 1 (-3) bitmask image_4x2 = bitmask (po + -3) image_4x2.
Proof.
  apply (apply_bitmask_delegates image_4x2 2 1 (-3)); reflexivity.
Defined.
